(** * Verification of the orchestration core of kimi-coding-agent

    Shallow embedding of:
    - [kimi_agent/sandbox.py]            : [CommandRunner]
    - [kimi_agent/workspace.py]          : [WorkspaceManager]
    - [kimi_coding_agent/sandbox/snapshot.py] : [SnapshotManager]
    - [kimi_coding_agent/orchestrator/pipeline.py] : [AgentOrchestrator.execute]
    - [kimi_agent/persistence/store.py]  : the [steps] table of [SQLiteRunStore]
    - [kimi_agent/packaging.py]          : [ArtifactPackager.package]
    - the [RunController] of [kimi_agent.orchestrator], which the CLI and the
      tests import but whose source is not part of the tree: modelled from the
      spec. *)

From Stdlib Require Import ZArith String Ascii.
From stdpp Require Import base gmap list strings pretty.

Open Scope Z_scope.
Set Warnings "-register-all".

Definition nl : string := String (Ascii.ascii_of_nat 10) EmptyString.

(** ** Sandboxed command runner ([kimi_agent/sandbox.py]) *)
Module Sandbox.

(** [config.SandboxPolicy] *)
Record SandboxPolicy := {
  allow_cli_tools : bool;
  allow_package_installs : bool
}.

(** The dataclass defaults: both gates closed. *)
Definition default_policy : SandboxPolicy :=
  {| allow_cli_tools := false; allow_package_installs := false |}.

Definition PACKAGE_INSTALL_PREFIXES : list (list string) :=
  [ ["npm"; "install"]; ["python"; "-m"; "pip"; "install"] ]%string.

Definition CLI_TOOL_PREFIXES : list (list string) :=
  [ ["npm"; "create"] ]%string.

(** What the process environment answers: [shutil.which] and the outcome of
    [subprocess.run]. Both are inputs of [run], never fixed. *)
Inductive spawn_outcome :=
| Completed (returncode : Z) (stdout stderr : string)
| RaisedFileNotFound (msg : string)
| RaisedOSError (errno : option Z) (msg : string).

Record Env := {
  which : string -> option string;
  spawn : list string -> string -> spawn_outcome
}.

Record CommandRunner := {
  _dry_run : bool;
  _policy : SandboxPolicy
}.

(** [CommandResult]; [log_text] is what [run] writes to [log_path]. *)
Record CommandResult := {
  command : list string;
  cwd : string;
  return_code : Z;
  stdout : string;
  stderr : string;
  skipped : bool;
  log_text : string;
  reason : option string
}.

(** [' '.join(command_list)] *)
Definition join (c : list string) : string := String.concat " " c.

(** [len(command) >= len(prefix) and all(a == b for a, b in zip(command, prefix))] *)
Fixpoint zip_all_eq (c p : list string) : bool :=
  match c, p with
  | a :: c', b :: p' => String.eqb a b && zip_all_eq c' p'
  | _, _ => true
  end.

Definition matches_prefix (c p : list string) : bool :=
  Nat.leb (length p) (length c) && zip_all_eq c p.

(** One of the two [for prefix in ...] loops of [_skip_reason]. *)
Fixpoint scan_prefixes (c : list string) (prefixes : list (list string))
    (allowed : bool) (blocked : string) : option string :=
  match prefixes with
  | [] => None
  | p :: ps =>
      if matches_prefix c p then
        if negb allowed then Some blocked else scan_prefixes c ps allowed blocked
      else scan_prefixes c ps allowed blocked
  end.

(** [CommandRunner._skip_reason] *)
Definition skip_reason (self : CommandRunner) (env : Env) (c : list string) : option string :=
  match c with
  | [] => Some "empty-command"%string
  | executable :: _ =>
      match scan_prefixes c PACKAGE_INSTALL_PREFIXES
              (allow_package_installs (_policy self)) "blocked-package-install" with
      | Some r => Some r
      | None =>
          match scan_prefixes c CLI_TOOL_PREFIXES
                  (allow_cli_tools (_policy self)) "blocked-cli" with
          | Some r => Some r
          | None =>
              if String.eqb executable "python" || String.eqb executable "py" then None
              else match which env executable with
                   | None => Some "missing-executable"%string
                   | Some _ => None
                   end
          end
      end
  end.

(** [CommandRunner.run] *)
Definition run (self : CommandRunner) (env : Env) (c : list string) (wd : string)
    : CommandResult :=
  match skip_reason self env c with
  | Some r =>
      {| command := c; cwd := wd; return_code := 0; stdout := ""; stderr := "";
         skipped := true;
         log_text := ("[skipped:" ++ r ++ "] command not executed: " ++ join c ++ nl)%string;
         reason := Some r |}
  | None =>
      if _dry_run self then
        {| command := c; cwd := wd; return_code := 0; stdout := ""; stderr := "";
           skipped := true;
           log_text := ("[dry-run] command skipped: " ++ join c ++ nl)%string;
           reason := Some "dry-run"%string |}
      else
        match spawn env c wd with
        | RaisedFileNotFound msg =>
            {| command := c; cwd := wd; return_code := 127; stdout := ""; stderr := msg;
               skipped := true;
               log_text := ("[missing-executable] command failed: " ++ join c ++ nl
                            ++ msg ++ nl)%string;
               reason := Some "missing-executable"%string |}
        | RaisedOSError errno msg =>
            {| command := c; cwd := wd;
               return_code := match errno with
                              | Some n => if Z.eqb n 0 then 1 else n
                              | None => 1
                              end;
               stdout := ""; stderr := msg; skipped := false;
               log_text := ("[os-error] command failed: " ++ join c ++ nl
                            ++ msg ++ nl)%string;
               reason := Some "os-error"%string |}
        | Completed rc out err =>
            {| command := c; cwd := wd; return_code := rc; stdout := out; stderr := err;
               skipped := false;
               log_text := ("$ " ++ join c ++ nl ++ nl ++ "STDOUT:" ++ nl ++ out ++ nl
                            ++ nl ++ "STDERR:" ++ nl ++ err)%string;
               reason := None |}
        end
  end.

(** [s] occurs in [t] as a substring. *)
Definition contains (t s : string) : Prop := exists a b, t = (a ++ s ++ b)%string.

(** An environment with no executables on the path and every spawn missing. *)
Definition empty_env : Env :=
  {| which := fun _ => None; spawn := fun _ _ => RaisedFileNotFound "not found" |}.

(** The executable named in the blocked command is present on the path
    ([which] answers), yet the command is blocked. *)
Definition npm_env : Env :=
  {| which := fun _ => Some "/usr/bin/npm"%string;
     spawn := fun _ _ => Completed 0 "ok" "" |}.





End Sandbox.


(** ** Python values and the [json] module *)
Module Py.

(** The Python values that appear in agent payloads. *)
Inductive pyval :=
| PNone
| PBool (b : bool)
| PInt (z : Z)
| PStr (s : string)
| PList (xs : list pyval)
| PTuple (xs : list pyval)
| PDict (kvs : list (pyval * pyval)).

(** JSON documents: what [json.dumps] writes and [json.loads] reads. *)
Inductive jvalue :=
| JNull
| JBool (b : bool)
| JInt (z : Z)
| JStr (s : string)
| JArr (xs : list jvalue)
| JObj (kvs : list (string * jvalue)).

(** Key conversion of [json.dumps] for dict keys ([TypeError] on others). *)
Definition json_key (k : pyval) : option string :=
  match k with
  | PStr s => Some s
  | PInt z => Some (pretty z)
  | PBool true => Some "true"%string
  | PBool false => Some "false"%string
  | PNone => Some "null"%string
  | _ => None
  end.

(** [json.dumps] at the level of the document it writes; [None] is the
    [TypeError] raised for values JSON cannot encode. *)
Fixpoint json_dumps (v : pyval) : option jvalue :=
  match v with
  | PNone => Some JNull
  | PBool b => Some (JBool b)
  | PInt z => Some (JInt z)
  | PStr s => Some (JStr s)
  | PList xs | PTuple xs =>
      JArr <$> (fix go (xs : list pyval) : option (list jvalue) :=
                  match xs with
                  | [] => Some []
                  | x :: xs' => j ← json_dumps x; js ← go xs'; Some (j :: js)
                  end) xs
  | PDict kvs =>
      JObj <$> (fix go (kvs : list (pyval * pyval)) : option (list (string * jvalue)) :=
                  match kvs with
                  | [] => Some []
                  | (k, x) :: kvs' =>
                      k' ← json_key k; j ← json_dumps x; js ← go kvs'; Some ((k', j) :: js)
                  end) kvs
  end.

(** [d[k] = v] on a dict with string keys, kept in insertion order. *)
Fixpoint dict_set (kvs : list (string * pyval)) (k : string) (v : pyval)
    : list (string * pyval) :=
  match kvs with
  | [] => [(k, v)]
  | (k', v') :: kvs' =>
      if String.eqb k k' then (k', v) :: kvs' else (k', v') :: dict_set kvs' k v
  end.

(** [json.loads]: objects become dicts built key by key (a repeated key keeps
    its first position and its last value). *)
Fixpoint json_loads (j : jvalue) : pyval :=
  match j with
  | JNull => PNone
  | JBool b => PBool b
  | JInt z => PInt z
  | JStr s => PStr s
  | JArr xs => PList (map json_loads xs)
  | JObj kvs =>
      PDict (map (fun kv => (PStr kv.1, kv.2))
               (fold_left (fun acc kv => dict_set acc kv.1 (json_loads kv.2)) kvs []))
  end.

End Py.


(** ** The filesystem as the code touches it *)
Module Fs.
Import Py.

(** A path is its list of components ([Path(a) / b / c]). *)
Abbreviation path := (list string).

(** A directory, a text file, a file holding a JSON document written by
    [json.dumps], a text file holding [str(v)] of a Python value, or a zip
    archive with its member entries (relative paths). *)
Inductive node :=
| NDir
| NFile (text : string)
| NJson (doc : jvalue)
| NPyText (v : pyval)
| NZip (entries : list (path * node)).

Abbreviation fs := (gmap path node).

(** [root] is a prefix of [p]: [p] is [root] or lies below it. *)
Fixpoint is_prefix (root p : path) : bool :=
  match root, p with
  | [], _ => true
  | a :: root', b :: p' => String.eqb a b && is_prefix root' p'
  | _ :: _, [] => false
  end.

(** [p] lies strictly below [root]. *)
Definition is_below (root p : path) : bool :=
  is_prefix root p && negb (Nat.eqb (length p) (length root)).

(** [Path.exists()] *)
Definition exists_ (p : path) (m : fs) : bool :=
  match m !! p with Some _ => true | None => false end.

(** [Path.unlink()] *)
Definition unlink (p : path) (m : fs) : fs := delete p m.

(** [shutil.rmtree(p)]: [p] and everything below it. *)
Definition rmtree (p : path) (m : fs) : fs :=
  filter (fun kv => is_prefix p kv.1 = false) m.

(** The non-empty prefixes of a path, shortest first: [p.parents] reversed,
    then [p] itself. *)
Fixpoint inits (p : path) : list path :=
  match p with
  | [] => []
  | a :: p' => [a] :: map (cons a) (inits p')
  end.

(** [Path.mkdir(parents=True, exist_ok=True)]: every missing component
    becomes a directory, existing ones are kept. *)
Definition mkdir_p (p : path) (m : fs) : fs :=
  fold_left (fun acc q => match acc !! q with
                          | Some _ => acc
                          | None => <[q := NDir]> acc
                          end) (inits p) m.

(** The entries [shutil.make_archive(..., "zip", root_dir=root)] stores:
    every directory and file strictly below [root], relative to it. *)
Definition archive_entries (root : path) (m : fs) : list (path * node) :=
  omap (fun kv : path * node =>
          if is_below root kv.1 then Some (drop (length root) kv.1, kv.2) else None)
       (map_to_list m).

(** [ZipFile(...).extractall(dest)]: each member is written at
    [dest / name], creating its missing parent directories. *)
Definition extractall (entries : list (path * node)) (dest : path) (m : fs) : fs :=
  fold_left (fun acc e => <[dest ++ e.1 := e.2]> (mkdir_p (dest ++ e.1) acc))
            entries m.

(** Two paths are related when one lies on the other's branch. *)
Definition related (a b : path) : bool := is_prefix a b || is_prefix b a.

(** Every non-empty prefix of an existing path exists: each file has its
    parent directories. *)
Definition well_formed (m : fs) : Prop :=
  forall p q, q <> [] -> is_prefix q p = true -> is_Some (m !! p) -> is_Some (m !! q).

(** A decision procedure for [well_formed] on a finite map. *)
Definition well_formedb (m : fs) : bool :=
  forallb (fun kv => forallb (fun q => exists_ q m) (inits kv.1)) (map_to_list m).

End Fs.

(** ** [kimi_agent/workspace.py]: [WorkspaceManager] *)
Module Workspace.
Import Fs.

Record WorkspaceManager := {
  _snapshots_dir : path;   (* data_dir / "snapshots" *)
  _restores_dir : path     (* data_dir / "restores" *)
}.

Definition snapshot_path_of (self : WorkspaceManager) (run_id : string) : path :=
  _snapshots_dir self ++ [(run_id ++ ".zip")%string].

(** [WorkspaceManager.create_snapshot].  [make_archive] writes
    [base_name + ".zip"], i.e. [snapshot_path] again, creating the archive
    directory if it is missing.  The archive content is taken before the
    zip file itself appears on disk. *)
Definition create_snapshot (self : WorkspaceManager) (run_id : string) (target : path)
    (m : fs) : option path * fs :=
  if negb (exists_ target m) then (None, m)
  else
    let snapshot_path := snapshot_path_of self run_id in
    let m1 := if exists_ snapshot_path m then unlink snapshot_path m else m in
    let m2 := mkdir_p (_snapshots_dir self) m1 in
    (Some snapshot_path, <[snapshot_path := NZip (archive_entries target m1)]> m2).

(** [WorkspaceManager.stage_restore]; [None] is an exception escaping
    ([zipfile.BadZipFile] when the handle is not a zip archive). *)
Definition stage_restore (self : WorkspaceManager) (run_id : string)
    (snapshot_path : option path) (m : fs) : option (option path * fs) :=
  match snapshot_path with
  | None => Some (None, m)
  | Some sp =>
      if negb (exists_ sp m) then Some (None, m)
      else
        let restore_dir := _restores_dir self ++ [run_id] in
        let m1 := if exists_ restore_dir m then rmtree restore_dir m else m in
        let m2 := mkdir_p restore_dir m1 in
        match m2 !! sp with
        | Some (NZip entries) => Some (Some restore_dir, extractall entries restore_dir m2)
        | _ => None
        end
  end.




Definition apart_fs : fs :=
  <[["proj"; "app.py"] := NFile "x"]>
  (<[["proj"] := NDir]>
  (<[["data"; "snapshots"] := NDir]>
  (<[["data"] := NDir]> ∅))).

End Workspace.

(** ** [kimi_coding_agent/sandbox/snapshot.py]: [SnapshotManager] *)
Module Snapshot.
Import Fs.

Record SnapshotManager := { base_dir : path }.

(** [SnapshotManager.create_snapshot]: archive built in a temporary directory
    and moved over [base_dir / f"{run_id}.zip"]. *)
Definition create_snapshot (self : SnapshotManager) (run_id : string) (target : path)
    (m : fs) : path * fs :=
  let snapshot_path := base_dir self ++ [(run_id ++ ".zip")%string] in
  (snapshot_path, <[snapshot_path := NZip (archive_entries target m)]> m).

(** [SnapshotManager.restore_snapshot]: every entry of the target directory
    is removed, then the snapshot is extracted into it.  [None] is an
    exception escaping ([iterdir] on a file, or a handle that is not a zip). *)
Definition restore_snapshot (snapshot_path target : path) (m : fs) : option fs :=
  if negb (exists_ snapshot_path m) then Some m
  else
    let m1 := match m !! target with
              | Some NDir => Some (filter (fun kv => is_below target kv.1 = false) m)
              | Some _ => None
              | None => Some (mkdir_p target m)
              end in
    match m1 with
    | None => None
    | Some m1 =>
        match m1 !! snapshot_path with
        | Some (NZip entries) => Some (extractall entries target m1)
        | _ => None
        end
    end.

(** [SnapshotManager.cleanup_snapshot] *)
Definition cleanup_snapshot (snapshot_path : path) (m : fs) : fs :=
  if exists_ snapshot_path m then unlink snapshot_path m else m.

End Snapshot.


(** ** [kimi_coding_agent]: store, packager and [AgentOrchestrator.execute] *)
Module Pipeline.
Import Py Fs.

(** [schemas.RunStatus] *)
Inductive RunStatus := PENDING | RUNNING | SUCCEEDED | FAILED.

(** A row of the [steps] table of [persistence/store.py] (timestamps
    omitted). *)
Record StepRow := {
  row_run_id : string;
  row_agent_name : string;
  row_status : RunStatus;
  row_payload : pyval
}.

(** Everything [execute] reads or writes: the filesystem, the three tables of
    the [RunStore], and the names of the agents whose [run] was called. *)
Record World := {
  w_fs : fs;
  w_runs : list (string * RunStatus);
  w_steps : list StepRow;
  w_artifacts : list (string * string * path);
  w_agent_calls : list string
}.

Definition set_fs (m : fs) (w : World) : World :=
  {| w_fs := m; w_runs := w_runs w; w_steps := w_steps w;
     w_artifacts := w_artifacts w; w_agent_calls := w_agent_calls w |}.

(** [RunStore.record_run_start]: [INSERT OR REPLACE] with status running. *)
Definition record_run_start (run_id : string) (w : World) : World :=
  {| w_fs := w_fs w;
     w_runs := (run_id, RUNNING) :: filter (fun r => r.1 <> run_id) (w_runs w);
     w_steps := w_steps w; w_artifacts := w_artifacts w;
     w_agent_calls := w_agent_calls w |}.

(** [RunStore.finalize_run] *)
Definition finalize_run (run_id : string) (st : RunStatus) (w : World) : World :=
  {| w_fs := w_fs w;
     w_runs := map (fun r => if String.eqb r.1 run_id then (r.1, st) else r) (w_runs w);
     w_steps := w_steps w; w_artifacts := w_artifacts w;
     w_agent_calls := w_agent_calls w |}.

(** [RunStore.record_step] *)
Definition record_step (row : StepRow) (w : World) : World :=
  {| w_fs := w_fs w; w_runs := w_runs w; w_steps := w_steps w ++ [row];
     w_artifacts := w_artifacts w; w_agent_calls := w_agent_calls w |}.

(** [RunStore.record_artifact] (description omitted) *)
Definition record_artifact (run_id artifact_type : string) (p : path) (w : World) : World :=
  {| w_fs := w_fs w; w_runs := w_runs w; w_steps := w_steps w;
     w_artifacts := w_artifacts w ++ [(run_id, artifact_type, p)];
     w_agent_calls := w_agent_calls w |}.

(** What an agent's [run] does: it returns a payload or raises, and it may
    update the shared state and the filesystem in either case. *)
Inductive agent_outcome := Returned (payload : pyval) | Raised (msg : string).

Record BaseAgent := {
  name : string;
  run : path -> list (string * pyval) -> fs -> agent_outcome * list (string * pyval) * fs
}.

(** [AgentStepResult] (timestamps omitted) *)
Record AgentStepResult := {
  agent_name : string;
  status : RunStatus;
  payload : pyval
}.

Record RunResult := {
  run_id : string;
  run_status : RunStatus;
  steps : list AgentStepResult;
  contexts : list (string * pyval)
}.

(** The [for agent in self.agents] loop of [execute]: the steps, the run
    status, the shared state and the world after the loop. *)
Fixpoint run_agents (agents : list BaseAgent) (rid : string) (target : path)
    (shared : list (string * pyval)) (w : World)
    : list AgentStepResult * RunStatus * list (string * pyval) * World :=
  match agents with
  | [] => ([], SUCCEEDED, shared, w)
  | agent :: rest =>
      let '(out, shared', m') := run agent target shared (w_fs w) in
      let w' := {| w_fs := m'; w_runs := w_runs w; w_steps := w_steps w;
                   w_artifacts := w_artifacts w;
                   w_agent_calls := w_agent_calls w ++ [name agent] |} in
      match out with
      | Raised msg =>
          let p := PDict [(PStr "error", PStr msg)] in
          ([{| agent_name := name agent; status := FAILED; payload := p |}],
           FAILED, shared',
           record_step {| row_run_id := rid; row_agent_name := name agent;
                          row_status := FAILED; row_payload := p |} w')
      | Returned p =>
          let w'' := record_step {| row_run_id := rid; row_agent_name := name agent;
                                    row_status := SUCCEEDED; row_payload := p |} w' in
          let '(ss, st, sh, w3) := run_agents rest rid target shared' w'' in
          ({| agent_name := name agent; status := SUCCEEDED; payload := p |} :: ss,
           st, sh, w3)
      end
  end.

(** [RunPackager.package]: writes [agent_run_<id>.json] into the target,
    then zips the target into [dist/<id>.zip].  [None] is the [TypeError]
    of [json.dumps]. *)
Definition package (dist_dir : path) (rid : string) (target : path)
    (ctx : list (string * pyval)) (m : fs) : option (path * fs) :=
  doc ← json_dumps (PDict (map (fun kv => (PStr kv.1, kv.2)) ctx));
  let m1 := <[target ++ [("agent_run_" ++ rid ++ ".json")%string] := NJson doc]> m in
  let archive_path := dist_dir ++ [(rid ++ ".zip")%string] in
  let m2 := if exists_ archive_path m1 then unlink archive_path m1 else m1 in
  Some (archive_path,
        <[archive_path := NZip (archive_entries target m2)]> (mkdir_p dist_dir m2)).

Record AgentOrchestrator := {
  snapshot_manager : Snapshot.SnapshotManager;
  dist_dir : path;                 (* the packager's [dist_dir] *)
  agents : list BaseAgent
}.

(** [AgentOrchestrator.execute]; the run id ([uuid4().hex]) is an input.
    [None] is an exception escaping [execute]. *)
Definition execute (self : AgentOrchestrator) (rid : string) (target : path) (w : World)
    : option (RunResult * World) :=
  let w1 := record_run_start rid w in
  let w2 := set_fs (mkdir_p target (w_fs w1)) w1 in
  let '(snapshot_path, m3) :=
    Snapshot.create_snapshot (snapshot_manager self) rid target (w_fs w2) in
  let '(steps, st, shared, w4) := run_agents (agents self) rid target [] (set_fs m3 w2) in
  w5 ← match st with
       | FAILED =>
           m5 ← Snapshot.restore_snapshot snapshot_path target (w_fs w4);
           Some (set_fs m5 w4)
       | _ =>
           '(archive_path, m5) ← package (dist_dir self) rid target shared (w_fs w4);
           let w5 := record_artifact rid "dist" archive_path (set_fs m5 w4) in
           Some (set_fs (Snapshot.cleanup_snapshot snapshot_path (w_fs w5)) w5)
       end;
  Some ({| run_id := rid; run_status := st; steps := steps; contexts := shared |},
        finalize_run rid st w5).

(** A concrete run: the Requirements agent returns, the Coding agent writes
    [main.py] and rewrites [notes.txt] in the target and then raises, the
    Documentation agent would return. *)
Definition demo_requirements : BaseAgent :=
  {| name := "requirements";
     run := fun _ sh m =>
       (Returned (PDict [(PStr "summary", PStr "ok")]),
        dict_set sh "requirements" (PStr "ok"), m) |}.

Definition demo_coding : BaseAgent :=
  {| name := "coding";
     run := fun t sh m =>
       (Raised "boom",
        sh,
        <[t ++ ["notes.txt"] := NFile "v2"]> (<[t ++ ["main.py"] := NFile "print()"]> m)) |}.

Definition demo_documentation : BaseAgent :=
  {| name := "documentation";
     run := fun _ sh m => (Returned (PDict []), sh, m) |}.

Definition demo_orchestrator : AgentOrchestrator :=
  {| snapshot_manager := {| Snapshot.base_dir := ["state"; "snapshots"] |};
     dist_dir := ["state"; "dist"];
     agents := [demo_requirements; demo_coding; demo_documentation] |}.

Definition demo_world : World :=
  {| w_fs := <[["t"; "notes.txt"] := NFile "v1"]> (<[["t"] := NDir]>
             (<[["state"; "snapshots"] := NDir]> (<[["state"] := NDir]> ∅)));
     w_runs := []; w_steps := []; w_artifacts := []; w_agent_calls := [] |}.

(** A second concrete run: the Testing agent reports a failed test command in
    its returned payload (as [agents/testing.py] does when [pytest --version]
    fails) without raising. *)
Definition demo_testing : BaseAgent :=
  {| name := "testing";
     run := fun _ sh m =>
       let p := PDict [(PStr "tests_run", PList [PStr "pytest --collect-only"]);
                       (PStr "status", PStr "failed");
                       (PStr "summary", PStr "pytest invocation failed")] in
       (Returned p, dict_set sh "testing" p, m) |}.

Definition demo_partial_orchestrator : AgentOrchestrator :=
  {| snapshot_manager := {| Snapshot.base_dir := ["state"; "snapshots"] |};
     dist_dir := ["state"; "dist"];
     agents := [demo_requirements; demo_testing; demo_documentation] |}.

(** The row [record_step] stores for a step result of run [rid]. *)
Definition row_of (rid : string) (s : AgentStepResult) : StepRow :=
  {| row_run_id := rid; row_agent_name := agent_name s; row_status := status s;
     row_payload := payload s |}.

(** [RunStore.load_run]: the run's status and its steps in insertion order
    ([WHERE run_id = ? ORDER BY id]), each payload read back with
    [json.loads] from what [record_step] stored with [json.dumps].
    Timestamps are not modelled and [contexts] is always [{}];
    [None] is the [KeyError] of an unknown run. *)
Definition load_run (rid : string) (w : World)
    : option (RunStatus * list (string * RunStatus * option pyval)) :=
  match List.find (fun r => String.eqb r.1 rid) (w_runs w) with
  | None => None
  | Some (_, st) =>
      Some (st, map (fun row => (row_agent_name row, row_status row,
                                 json_loads <$> json_dumps (row_payload row)))
                    (filter (fun row => row_run_id row = rid) (w_steps w)))
  end.

End Pipeline.


(** ** [kimi_agent/persistence/store.py]: the [steps] table of [SQLiteRunStore] *)
Module Store.
Import Py.

(** A row of [steps] (timestamps omitted); [None] is SQL [NULL]. *)
Record StepRow := {
  run_id : string;
  agent_name : string;
  status : string;
  input_payload : option jvalue;
  output_payload : option jvalue;
  error : option string
}.

(** The table and its [AUTOINCREMENT] counter. *)
Record StepsTable := {
  rows : gmap nat StepRow;
  next_id : nat
}.

Definition empty_table : StepsTable := {| rows := ∅; next_id := 1 |}.

(** [record_step_start]: returns [cursor.lastrowid]; [None] is the
    [TypeError] of [json.dumps(input_payload)]. *)
Definition record_step_start (rid agent : string) (input : pyval) (t : StepsTable)
    : option (nat * StepsTable) :=
  doc ← json_dumps input;
  let row := {| run_id := rid; agent_name := agent; status := "running";
                input_payload := Some doc; output_payload := None; error := None |} in
  Some (next_id t, {| rows := <[next_id t := row]> (rows t); next_id := S (next_id t) |}).

(** [UPDATE steps SET ... WHERE id = ?]: no row changes for an unknown id. *)
Definition update_row (f : StepRow -> StepRow) (step_id : nat) (t : StepsTable) : StepsTable :=
  {| rows := alter f step_id (rows t); next_id := next_id t |}.

(** [record_step_complete] *)
Definition record_step_complete (step_id : nat) (output : pyval) (st : string)
    (t : StepsTable) : option StepsTable :=
  doc ← json_dumps output;
  Some (update_row (fun r => {| run_id := run_id r; agent_name := agent_name r;
                                 status := st; input_payload := input_payload r;
                                 output_payload := Some doc; error := error r |})
                   step_id t).

(** [record_step_failed] *)
Definition record_step_failed (step_id : nat) (err : string) (t : StepsTable) : StepsTable :=
  update_row (fun r => {| run_id := run_id r; agent_name := agent_name r;
                           status := "failed"; input_payload := input_payload r;
                           output_payload := output_payload r; error := Some err |})
             step_id t.

(** The store calls a run makes on the [steps] table. *)
Inductive step_call :=
| StepStart (rid agent : string) (input : pyval)
| StepComplete (step_id : nat) (output : pyval) (st : string)
| StepFailed (step_id : nat) (err : string).

Definition apply_call (c : step_call) (t : StepsTable) : option StepsTable :=
  match c with
  | StepStart rid agent input => snd <$> record_step_start rid agent input t
  | StepComplete i out st => record_step_complete i out st t
  | StepFailed i err => Some (record_step_failed i err t)
  end.

(** A sequence of calls; [None] once one of them raises. *)
Fixpoint apply_calls (cs : list step_call) (t : StepsTable) : option StepsTable :=
  match cs with
  | [] => Some t
  | c :: cs' => t' ← apply_call c t; apply_calls cs' t'
  end.

(** The status a completion is recorded with is an [AgentResult] status. *)
Definition agent_status_call (c : step_call) : Prop :=
  match c with
  | StepComplete _ _ st => st = "succeeded"%string \/ st = "failed"%string
  | _ => True
  end.

(** The invariant of the claim, row by row. *)
Definition row_ok (r : StepRow) : Prop :=
  (status r = "running"%string /\ output_payload r = None)
  \/ (status r = "succeeded"%string /\ output_payload r <> None)
  \/ status r = "failed"%string.

(** The invariant over the whole table. *)
Definition table_ok (t : StepsTable) : Prop :=
  map_Forall (fun _ r => row_ok r) (rows t).

(** Demo calls: a step completed, then a step failed. *)
Definition demo_calls : list step_call :=
  [StepStart "run1" "requirements" (PDict [(PStr "prompt", PStr "todo app")]);
   StepComplete 1 (PDict [(PStr "spec", PList [PStr "a"])]) "succeeded";
   StepStart "run1" "testing" (PDict []);
   StepFailed 2 "boom"].

End Store.


(** ** [kimi_agent/packaging.py]: [ArtifactPackager.package] *)
Module Packaging.
Import Py Fs.

(** The fields of [AgentResult] the packager reads; [artifacts] maps a file
    name to its artifact dict, in insertion order. *)
Record AgentResult := {
  name : string;
  status : string;
  summary : string;
  details : pyval;
  artifacts : list (string * pyval)
}.

(** [d.get(k, default)] on a dict, for a string key. *)
Fixpoint py_get (kvs : list (pyval * pyval)) (k : string) (default : pyval) : pyval :=
  match kvs with
  | [] => default
  | (PStr k', v) :: kvs' => if String.eqb k k' then v else py_get kvs' k default
  | _ :: kvs' => py_get kvs' k default
  end.

(** [s.endswith(suffix)] *)
Definition endswith (s suffix : string) : bool :=
  bool_decide (list_ascii_of_string suffix `suffix_of` list_ascii_of_string s).

Definition readme_text : string :=
  "Sprint 5 bundle containing manifest, agent artifacts, SBOM, dependency manifests, and execution logs.".

(** The [manifest] dict. *)
Definition manifest_of (run_id target_path : string) (results : list AgentResult)
    (metadata : pyval) : pyval :=
  PDict [(PStr "run_id", PStr run_id);
         (PStr "target_path", PStr target_path);
         (PStr "metadata", metadata);
         (PStr "agents",
           PList (map (fun r =>
             PDict [(PStr "name", PStr (name r));
                    (PStr "status", PStr (status r));
                    (PStr "summary", PStr (summary r));
                    (PStr "details", details r);
                    (PStr "artifacts",
                      PDict (map (fun fa => (PStr fa.1, fa.2)) (artifacts r)))])
             results))].

(** One iteration of [for filename, artifact in result.artifacts.items()]
    with [agent_dir = dir]; [None] is the exception raised by a non-dict
    artifact, a non-string type, or [json.dumps].  [agent_dir / filename]
    is [dir ++ [filename]]: names are taken to be single path components. *)
Definition write_artifact (dir : path) (t : fs) (fa : string * pyval) : option fs :=
  let '(filename, artifact) := fa in
  match artifact with
  | PDict kvs =>
      match py_get kvs "payload" PNone with
      | PNone => Some t
      | payload =>
          match py_get kvs "type" (PStr "") with
          | PStr artifact_type =>
              if endswith artifact_type "json" || endswith filename ".json" then
                doc ← json_dumps payload;
                Some (<[dir ++ [filename] := NJson doc]> t)
              else Some (<[dir ++ [filename] := NPyText payload]> t)
          | _ => None
          end
      end
  | _ => None
  end.

Fixpoint write_artifacts (dir : path) (fas : list (string * pyval)) (t : fs) : option fs :=
  match fas with
  | [] => Some t
  | fa :: fas' => t' ← write_artifact dir t fa; write_artifacts dir fas' t'
  end.

(** [for result in agent_results_list: ...] *)
Fixpoint write_results (results : list AgentResult) (t : fs) : option fs :=
  match results with
  | [] => Some t
  | r :: rs =>
      let agent_dir := ["artifacts"; name r] in
      t' ← write_artifacts agent_dir (artifacts r) (mkdir_p agent_dir t);
      write_results rs t'
  end.

Definition is_file (n : node) : bool :=
  match n with NDir => false | _ => true end.

(** The members [archive.write] stores: every file of the temporary
    directory, by its path relative to it. *)
Definition zip_members (t : fs) : list (path * node) :=
  filter (fun kv => is_file kv.2 = true) (map_to_list t).

(** [ArtifactPackager.package], returning the members of [dist/<run_id>.zip].
    The temporary directory is the file system [t] (paths relative to it).
    [sbom_doc] is the SBOM document ([generated_at] and
    [_extract_dependencies] are not modelled; [None] is an exception there);
    [logs] is [None] when [metadata["run.logs_dir"]] is unset or missing, and
    otherwise the sorted [*.log] files found there.  [None] is an exception
    escaping [package]. *)
Definition package (run_id target_path : string) (results : list AgentResult)
    (metadata : pyval) (sbom_doc : option jvalue)
    (logs : option (list (string * node))) : option (list (path * node)) :=
  let manifest := manifest_of run_id target_path results metadata in
  provenance ← json_dumps metadata;
  let t0 := <[["provenance.json"] := NJson provenance]> (∅ : fs) in
  manifest_doc ← json_dumps manifest;
  let t1 := <[["manifest.json"] := NJson manifest_doc]> t0 in
  let t2 := <[["README.txt"] := NFile readme_text]> t1 in
  let t3 := mkdir_p ["artifacts"] t2 in
  t4 ← write_results results t3;
  sbom ← sbom_doc;
  let t5 := <[["sbom.json"] := NJson sbom]> t4 in
  let t6 := match logs with
            | None => t5
            | Some log_files =>
                fold_left (fun acc lf => <[["logs"; lf.1] := lf.2]> acc)
                          log_files (mkdir_p ["logs"] t5)
            end in
  Some (zip_members t6).

(** [ZipFile.read(name)]: the member stored under [name] (the last one, as
    [zipfile] keeps the last entry of a repeated name). *)
Fixpoint zip_read (members : list (path * node)) (p : path) : option node :=
  match members with
  | [] => None
  | (q, n) :: ms =>
      match zip_read ms p with
      | Some n' => Some n'
      | None => if decide (q = p) then Some n else None
      end
  end.









Definition demo_ok_payload : pyval :=
  PDict [(PStr "dependencies", PDict [(PStr "pip", PDict [(PStr "flask", PStr "3.0")])]);
         (PStr "files", PList [PStr "app.py"; PInt 2; PBool true; PNone])].

Definition demo_ok_artifact : list (pyval * pyval) :=
  [(PStr "type", PStr "json"); (PStr "payload", demo_ok_payload)].

Definition demo_ok_result : AgentResult :=
  {| name := "coding"; status := "succeeded"; summary := "scaffolded"; details := PDict [];
     artifacts := [("scaffold.json", PDict demo_ok_artifact);
                   ("notes.txt", PDict [(PStr "type", PStr "text"); (PStr "payload", PStr "hi")])] |}.

Definition demo_ok_results : list AgentResult :=
  [demo_ok_result;
   {| name := "testing"; status := "failed"; summary := "1 failure"; details := PDict [];
      artifacts := [("report.json", PDict [(PStr "payload", PNone)])] |}].

End Packaging.


(** ** [kimi_agent.orchestrator.RunController] *)
(** Modelled from the spec: RunController of kimi_agent.orchestrator (absent
    from src; imported by [kimi_agent/cli.py]), following the state machine
    of the spec's Run Controller section over the [kimi_agent] pieces that
    are present: [WorkspaceManager] and the [AgentResult] the packager reads. *)
Module RunController.
Import Py Fs Workspace Packaging.

(** A persona agent's [execute]: it returns an [AgentResult] or raises, and
    may change the filesystem. *)
Inductive agent_outcome := AgentReturned (r : AgentResult) | AgentRaised (msg : string).

Record PersonaAgent := {
  agent_label : string;
  agent_execute : fs -> agent_outcome * fs
}.

(** The packager as the controller sees it: a packaging status and the
    archive members, or an exception ([None]). *)
Definition Packager := string -> list AgentResult -> fs -> option (string * list (path * node)).

Record PipelineRequest := {
  req_run_id : string;
  req_target_path : path;
  req_dry_run : bool
}.

Record RunControllerResult := {
  result_status : string;
  agent_results : list AgentResult;
  packaging : option (string * list (path * node));
  events : list string;
  final_fs : fs
}.

(** The agent loop: status so far, results, events, filesystem.  A raise
    stops the loop with status [failed]; a returned non-succeeded status
    degrades the run to [partial-success] and the loop goes on. *)
Fixpoint run_loop (ags : list PersonaAgent) (st : string) (results : list AgentResult)
    (evs : list string) (m : fs) : string * list AgentResult * list string * fs :=
  match ags with
  | [] => (st, results, evs, m)
  | a :: rest =>
      match agent_execute a m with
      | (AgentRaised _, m') => ("failed"%string, results, evs ++ ["agent_failed"%string], m')
      | (AgentReturned r, m') =>
          let st' := if String.eqb (status r) "succeeded" then st else "partial-success"%string in
          run_loop rest st' (results ++ [r]) (evs ++ ["agent_completed"%string]) m'
      end
  end.

Definition execute (ws : WorkspaceManager) (packager : Packager) (ags : list PersonaAgent)
    (req : PipelineRequest) (m : fs) : RunControllerResult :=
  let rid := req_run_id req in
  let target := req_target_path req in
  let '(snapshot, m1) := create_snapshot ws rid target m in
  let '(st, results, evs, m2) := run_loop ags "running"%string [] ["run_started"%string] m1 in
  let st := if String.eqb st "running" then "succeeded"%string else st in
  let '(st, pkg, evs, m3) :=
    if String.eqb st "failed" then
      match stage_restore ws rid snapshot m2 with
      | Some (_, m3) => (st, None, evs ++ ["rollback_staged"%string], m3)
      | None => (st, None, evs, m2)
      end
    else if req_dry_run req then (st, None, evs ++ ["packaging_skipped"%string], m2)
    else
      match packager rid results m2 with
      | Some (pst, members) =>
          let st' := if String.eqb pst "succeeded" then st else "partial-success"%string in
          (st', Some (pst, members), evs ++ ["packaging_completed"%string], m2)
      | None => ("partial-success"%string, None, evs ++ ["packaging_failed"%string], m2)
      end in
  {| result_status := st; agent_results := results; packaging := pkg;
     events := evs ++ ["run_completed"%string]; final_fs := m3 |}.





End RunController.

(* ================================================================== *)
(** * Properties *)
(* ================================================================== *)

(** ** Command runner *)
Module SandboxFacts.
Import Sandbox.

Example run_blocks_pip_example :
  reason (run {| _dry_run := false; _policy := default_policy |} empty_env
            ["python"; "-m"; "pip"; "install"; "foo"]%string "/w")
  = Some "blocked-package-install"%string.
Proof. reflexivity. Qed.

Example run_dry_run_python_example :
  reason (run {| _dry_run := true; _policy := default_policy |} empty_env
            ["python"; "--version"]%string "/w")
  = Some "dry-run"%string.
Proof. reflexivity. Qed.


Lemma scan_prefixes_reason c ps allowed blocked r :
  scan_prefixes c ps allowed blocked = Some r -> r = blocked.
Proof.
  induction ps as [|p ps IH]; simpl; [discriminate|].
  destruct (matches_prefix c p), allowed; simpl; auto; congruence.
Qed.

Lemma scan_prefixes_hit c ps p blocked :
  In p ps -> matches_prefix c p = true ->
  scan_prefixes c ps false blocked = Some blocked.
Proof.
  induction ps as [|q ps IH]; simpl; [tauto|].
  intros [<-|Hin] Hm.
  - rewrite Hm. reflexivity.
  - destruct (matches_prefix c q); simpl; auto.
Qed.

(** A command whose token list starts with a gated prefix is never empty. *)
Lemma gated_prefix_nonempty p :
  In p PACKAGE_INSTALL_PREFIXES \/ In p CLI_TOOL_PREFIXES ->
  matches_prefix [] p = false.
Proof.
  unfold PACKAGE_INSTALL_PREFIXES, CLI_TOOL_PREFIXES; simpl.
  intros [[<-|[<-|[]]]|[<-|[]]]; reflexivity.
Qed.

(** C2: a command matching a gated prefix while the corresponding policy flag
    is [False] is skipped with reason [blocked-package-install] or
    [blocked-cli], return code 0 and empty output, for every answer of
    [which] and of the process launcher (so whether or not the executable
    exists) and whatever the dry-run flag. *)
Theorem run_gated_prefix_blocked (self : CommandRunner) (env : Env)
    (c : list string) (wd : string) (p : list string) :
  (In p PACKAGE_INSTALL_PREFIXES /\ matches_prefix c p = true
     /\ allow_package_installs (_policy self) = false)
  \/ (In p CLI_TOOL_PREFIXES /\ matches_prefix c p = true
     /\ allow_cli_tools (_policy self) = false) ->
  let r := run self env c wd in
  skipped r = true
  /\ (reason r = Some "blocked-package-install"%string
      \/ reason r = Some "blocked-cli"%string)
  /\ return_code r = 0 /\ stdout r = ""%string /\ stderr r = ""%string.
Proof.
  intros H.
  assert (Hne : c <> []).
  { intros ->. destruct H as [(Hin & Hm & _)|(Hin & Hm & _)];
      rewrite gated_prefix_nonempty in Hm by tauto; discriminate. }
  unfold run, skip_reason.
  destruct c as [|exe rest]; [congruence|].
  destruct (scan_prefixes (exe :: rest) PACKAGE_INSTALL_PREFIXES _ _) as [r|] eqn:Hpkg.
  - apply scan_prefixes_reason in Hpkg. subst r. simpl. auto.
  - destruct H as [(Hin & Hm & Hflag)|(Hin & Hm & Hflag)].
    + rewrite Hflag in Hpkg.
      rewrite (scan_prefixes_hit _ _ _ _ Hin Hm) in Hpkg. discriminate.
    + rewrite Hflag, (scan_prefixes_hit _ _ _ _ Hin Hm). simpl. auto.
Qed.

Lemma run_gated_prefix_blocked_witness :
  let self := {| _dry_run := false; _policy := default_policy |} in
  let c := ["npm"; "install"; "left-pad"]%string in
  ((In ["npm"; "install"]%string PACKAGE_INSTALL_PREFIXES
     /\ matches_prefix c ["npm"; "install"]%string = true
     /\ allow_package_installs (_policy self) = false)
   \/ (In ["npm"; "install"]%string CLI_TOOL_PREFIXES
     /\ matches_prefix c ["npm"; "install"]%string = true
     /\ allow_cli_tools (_policy self) = false))
  /\ (let r := run self npm_env c "/w" in
      skipped r = true
      /\ (reason r = Some "blocked-package-install"%string
          \/ reason r = Some "blocked-cli"%string)
      /\ return_code r = 0 /\ stdout r = ""%string /\ stderr r = ""%string).
Proof.
  simpl. split.
  - left. split; [left; reflexivity | split; reflexivity].
  - apply (run_gated_prefix_blocked
             {| _dry_run := false; _policy := default_policy |} npm_env
             ["npm"; "install"; "left-pad"]%string "/w" ["npm"; "install"]%string).
    left. split; [left; reflexivity | split; reflexivity].
Defined.


Lemma string_app_assoc (a b c : string) :
  String.append a (String.append b c) = String.append (String.append a b) c.
Proof. induction a as [|x a IH]; [reflexivity | exact (f_equal (String x) IH)]. Qed.

(** C6 (counterexample): in dry-run mode, a package install with the default
    policy is reported as [blocked-package-install], not [dry-run]. *)
Lemma run_dry_run_reason_counterexample :
  reason (run {| _dry_run := true; _policy := default_policy |} npm_env
            ["npm"; "install"]%string "/w")
  = Some "blocked-package-install"%string
  /\ reason (run {| _dry_run := true; _policy := default_policy |} npm_env
               ["npm"; "install"]%string "/w") <> Some "dry-run"%string.
Proof. split; [reflexivity | discriminate]. Qed.

(** C6 (amended): in dry-run mode every command is skipped with return code
    0 and empty stdout/stderr, and the log text contains the command line
    that would have run; the reason is [dry-run] unless [_skip_reason]
    already classifies the command (empty-command, blocked-package-install,
    blocked-cli, missing-executable), in which case that reason is reported. *)
Theorem run_dry_run_skipped (self : CommandRunner) (env : Env)
    (c : list string) (wd : string) :
  _dry_run self = true ->
  let r := run self env c wd in
  skipped r = true /\ return_code r = 0
  /\ stdout r = ""%string /\ stderr r = ""%string
  /\ reason r = Some (match skip_reason self env c with
                      | Some x => x
                      | None => "dry-run"%string
                      end)
  /\ contains (log_text r) (join c).
Proof.
  intros Hdry. unfold run. rewrite Hdry.
  destruct (skip_reason self env c) as [x|]; simpl;
    repeat split; unfold contains.
  - exists ("[skipped:" ++ x ++ "] command not executed: ")%string, nl.
    rewrite <- !string_app_assoc. reflexivity.
  - exists "[dry-run] command skipped: "%string, nl. reflexivity.
Qed.

Lemma run_dry_run_skipped_witness :
  _dry_run {| _dry_run := true; _policy := default_policy |} = true
  /\ (let r := run {| _dry_run := true; _policy := default_policy |} npm_env
                  ["npm"; "test"]%string "/w" in
      skipped r = true /\ return_code r = 0
      /\ stdout r = ""%string /\ stderr r = ""%string
      /\ reason r = Some (match skip_reason {| _dry_run := true; _policy := default_policy |}
                                npm_env ["npm"; "test"]%string with
                          | Some x => x
                          | None => "dry-run"%string
                          end)
      /\ contains (log_text r) (join ["npm"; "test"]%string)).
Proof.
  split; [reflexivity|].
  apply run_dry_run_skipped. reflexivity.
Defined.

(** C10: the empty command is not executed; it is skipped with reason
    [empty-command], return code 0 and empty output, a reason outside the
    set {blocked-package-install, blocked-cli, dry-run, missing-executable,
    os-error}. *)
Theorem run_empty_command (self : CommandRunner) (env : Env) (wd : string) :
  let r := run self env [] wd in
  skipped r = true /\ reason r = Some "empty-command"%string
  /\ return_code r = 0 /\ stdout r = ""%string /\ stderr r = ""%string
  /\ ~ In "empty-command"%string
        ["blocked-package-install"; "blocked-cli"; "dry-run";
         "missing-executable"; "os-error"]%string.
Proof.
  simpl. repeat split.
  intros H. repeat (destruct H as [H|H]; [discriminate H|]). exact H.
Qed.

End SandboxFacts.


(** ** Filesystem lemmas *)
Module FsFacts.
Import Py Fs.

Lemma is_prefix_refl (p : path) : is_prefix p p = true.
Proof. induction p as [|x p IH]; simpl; [reflexivity|]. by rewrite String.eqb_refl. Qed.

Lemma is_prefix_app (a r : path) : is_prefix a (a ++ r) = true.
Proof. induction a as [|x a IH]; simpl; [reflexivity|]. by rewrite String.eqb_refl. Qed.


Lemma is_prefix_comparable (a b c : path) :
  is_prefix a c = true -> is_prefix b c = true -> related a b = true.
Proof.
  unfold related. revert b c. induction a as [|x a IH]; intros b c; simpl; [reflexivity|].
  destruct c as [|z c]; [discriminate|]. destruct b as [|y b]; simpl; [intros; reflexivity|].
  rewrite !andb_true_iff, !String.eqb_eq. intros [-> H1] [-> H2].
  rewrite String.eqb_refl. simpl. eapply IH; eauto.
Qed.

Lemma in_inits_prefix (q p : path) : In q (inits p) -> is_prefix q p = true.
Proof.
  revert q. induction p as [|x p IH]; intros q; simpl; [tauto|].
  intros [<-|Hin]; simpl.
  - by rewrite String.eqb_refl.
  - apply in_map_iff in Hin as (q' & <- & Hq'). simpl.
    rewrite String.eqb_refl. simpl. auto.
Qed.

(** [mkdir_p] only adds directories, and only at prefixes of its argument. *)
Lemma mkdir_p_lookup (p : path) (m : fs) (q : path) :
  mkdir_p p m !! q = m !! q \/ (m !! q = None /\ In q (inits p)).
Proof.
  unfold mkdir_p. generalize (inits p) as L. intros L. revert m.
  induction L as [|x L IH]; intros m; simpl; [auto|].
  destruct (IH (match m !! x with Some _ => m | None => <[x:=NDir]> m end))
    as [H|[H1 H2]]; rewrite ?H.
  - destruct (m !! x) eqn:Ex; [auto|].
    destruct (decide (x = q)) as [->|Hne].
    + right. split; auto.
    + left. by rewrite lookup_insert_ne.
  - right. split; [|auto].
    destruct (m !! x) eqn:Ex; [exact H1|].
    destruct (decide (x = q)) as [->|Hne].
    + by rewrite lookup_insert_eq in H1.
    + by rewrite lookup_insert_ne in H1.
Qed.

Lemma mkdir_p_keeps (p : path) (m : fs) (q : path) (n : node) :
  m !! q = Some n -> mkdir_p p m !! q = Some n.
Proof. intros H. destruct (mkdir_p_lookup p m q) as [->|[H1 _]]; congruence. Qed.

(** [extractall] into [dest] changes nothing off the branch of [dest]. *)
Lemma extractall_frame (es : list (path * node)) (dest : path) (m : fs) (q : path) :
  related q dest = false -> extractall es dest m !! q = m !! q.
Proof.
  intros Hrel. unfold extractall. revert m.
  induction es as [|[rel n] es IH]; intros m; simpl; [reflexivity|].
  rewrite IH. simpl.
  rewrite lookup_insert_ne.
  - destruct (mkdir_p_lookup (dest ++ rel) m q) as [H|[_ Hin]]; [exact H|].
    apply in_inits_prefix in Hin.
    pose proof (is_prefix_comparable q dest (dest ++ rel) Hin (is_prefix_app dest rel)).
    congruence.
  - intros Heq. subst q. unfold related in Hrel.
    rewrite (is_prefix_app dest rel), orb_true_r in Hrel. discriminate.
Qed.


End FsFacts.

(** ** Snapshots and staged restores *)
Module WorkspaceFacts.
Import Py Fs FsFacts Workspace.






End WorkspaceFacts.

(** ** The [kimi_coding_agent] orchestrator *)
Module PipelineFacts.
Import Py Fs Pipeline.

Section RaisingAgent.
Variables (rid : string) (target : path) (pre : list BaseAgent) (a : BaseAgent)
          (post : list BaseAgent).
Hypothesis pre_return :
  forall b, In b pre -> forall t sh m, exists p, (run b t sh m).1.1 = Returned p.
Hypothesis a_raises :
  forall t sh m, exists msg, (run a t sh m).1.1 = Raised msg.


End RaisingAgent.




End PipelineFacts.

(** ** Rollback of failed runs *)
Module RollbackFacts.
Import Py Fs FsFacts Workspace WorkspaceFacts Pipeline PipelineFacts.




End RollbackFacts.

(** ** Step records of [SQLiteRunStore] *)
Module StoreFacts.
Import Py Store.

Lemma update_row_ok (f : StepRow -> StepRow) (i : nat) (t : StepsTable) :
  (forall r, row_ok r -> row_ok (f r)) ->
  table_ok t -> table_ok (update_row f i t).
Proof.
  intros Hf Ht j r. simpl.
  destruct (decide (i = j)) as [->|Hne].
  - rewrite lookup_alter_eq.
    destruct (rows t !! j) as [r0|] eqn:E; simpl; [|discriminate].
    intros [= <-]. apply Hf. exact (Ht j r0 E).
  - rewrite lookup_alter_ne by exact Hne. apply Ht.
Qed.

Lemma apply_call_ok (c : step_call) (t t' : StepsTable) :
  agent_status_call c -> table_ok t -> apply_call c t = Some t' -> table_ok t'.
Proof.
  intros Hc Ht. destruct c as [rid agent input|i out st|i err]; simpl.
  - unfold record_step_start. destruct (json_dumps input); simpl; [|discriminate].
    intros [= <-]. unfold table_ok; simpl. apply map_Forall_insert_2; [|exact Ht].
    left. split; reflexivity.
  - unfold record_step_complete. destruct (json_dumps out) as [doc|]; simpl; [|discriminate].
    intros [= <-]. apply update_row_ok; [|exact Ht].
    intros r _. unfold row_ok; simpl.
    destruct Hc as [->| ->];
      [right; left; split; [reflexivity|discriminate] | right; right; reflexivity].
  - intros [= <-]. apply update_row_ok; [|exact Ht].
    intros r _. unfold row_ok; simpl. auto.
Qed.

Lemma apply_calls_ok (cs : list step_call) (t t' : StepsTable) :
  Forall agent_status_call cs -> table_ok t -> apply_calls cs t = Some t' -> table_ok t'.
Proof.
  revert t. induction cs as [|c cs IH]; intros t Hcs Ht; simpl.
  - intros [= <-]. exact Ht.
  - inversion Hcs as [|? ? Hc Hcs']; subst.
    destruct (apply_call c t) as [t1|] eqn:E; simpl; [|discriminate].
    apply IH; [exact Hcs'|]. exact (apply_call_ok c t t1 Hc Ht E).
Qed.

(** C9: whatever sequence of step calls a run makes, as long as every
    completion is recorded with an agent status ([succeeded] or [failed]),
    each row of [steps] satisfies: a [running] row has no output payload,
    a [succeeded] row has one, and a row with an output payload is
    [succeeded] or [failed]. *)
Theorem steps_output_iff_terminal (cs : list step_call) (t : StepsTable) :
  Forall agent_status_call cs ->
  apply_calls cs empty_table = Some t ->
  forall i r, rows t !! i = Some r ->
    (status r = "running"%string -> output_payload r = None)
    /\ (status r = "succeeded"%string -> output_payload r <> None)
    /\ (output_payload r <> None ->
          status r = "succeeded"%string \/ status r = "failed"%string).
Proof.
  intros Hcs Happ i r Hr.
  assert (Hok : row_ok r).
  { refine (apply_calls_ok cs empty_table t Hcs _ Happ i r Hr).
    apply map_Forall_empty. }
  destruct Hok as [[Hs Ho]|[[Hs Ho]|Hs]]; rewrite Hs; repeat split;
    try discriminate; auto.
  intros Hne. exfalso. exact (Hne Ho).
Qed.

Lemma steps_output_iff_terminal_witness :
  exists t, apply_calls demo_calls empty_table = Some t /\
  forall i r, rows t !! i = Some r ->
    (status r = "running"%string -> output_payload r = None)
    /\ (status r = "succeeded"%string -> output_payload r <> None)
    /\ (output_payload r <> None ->
          status r = "succeeded"%string \/ status r = "failed"%string).
Proof.
  destruct (apply_calls demo_calls empty_table) as [t|] eqn:E.
  - exists t. split; [reflexivity|].
    apply (steps_output_iff_terminal demo_calls t); [|exact E].
    repeat constructor; simpl; auto.
  - vm_compute in E. discriminate.
Defined.

End StoreFacts.

(** ** Packaging round trip *)
Module PackagingFacts.
Import Py Fs Packaging FsFacts.

Section pyval_ind'.
Variable P : pyval -> Prop.
Hypothesis HNone : P PNone.
Hypothesis HBool : forall b, P (PBool b).
Hypothesis HInt : forall z, P (PInt z).
Hypothesis HStr : forall s, P (PStr s).
Hypothesis HList : forall xs, Forall P xs -> P (PList xs).
Hypothesis HTuple : forall xs, Forall P xs -> P (PTuple xs).
Hypothesis HDict : forall kvs, Forall (fun kv => P kv.2) kvs -> P (PDict kvs).

End pyval_ind'.




Lemma write_artifact_frame (dir : path) (t t' : fs) (f : string) (art : pyval) (q : path) :
  write_artifact dir t (f, art) = Some t' -> q <> dir ++ [f] -> t' !! q = t !! q.
Proof.
  intros Hw Hq. unfold write_artifact in Hw.
  destruct art as [| | | | | |kvs]; try discriminate.
  destruct (py_get kvs "payload" PNone) as [| | | | | |] eqn:Ep;
    try (injection Hw as <-; reflexivity);
    (destruct (py_get kvs "type" (PStr "")) as [| | |ty| | |]; try discriminate;
     destruct (endswith ty "json" || endswith f ".json");
     [destruct (json_dumps _); simpl in Hw; [|discriminate]|];
     injection Hw as <-; by rewrite lookup_insert_ne by congruence).
Qed.

Lemma write_artifacts_frame (dir : path) (fas : list (string * pyval)) (t t' : fs) (q : path) :
  write_artifacts dir fas t = Some t' -> (forall f, f ∈ map fst fas -> q <> dir ++ [f]) ->
  t' !! q = t !! q.
Proof.
  revert t. induction fas as [|[f art] fas IH]; intros t Hw Hq; cbn [write_artifacts] in Hw.
  - by injection Hw as <-.
  - destruct (write_artifact dir t (f, art)) as [t1|] eqn:E1; cbn [mbind option_bind] in Hw; [|discriminate].
    rewrite (IH t1 Hw).
    + apply (write_artifact_frame dir t t1 f art q E1). apply Hq. apply list_elem_of_here.
    + intros f' Hf'. apply Hq. by apply list_elem_of_further.
Qed.





Lemma zip_read_none (ms : list (path * node)) (p : path) :
  p ∉ map fst ms -> zip_read ms p = None.
Proof.
  induction ms as [|[q n] ms IH]; simpl; [reflexivity|].
  intros Hp. rewrite not_elem_of_cons in Hp. destruct Hp as [Hq Hp].
  rewrite IH by exact Hp. by rewrite decide_False by congruence.
Qed.








End PackagingFacts.

(** ** Agents that return *)
Module ReturningFacts.
Import Py Fs Pipeline.





End ReturningFacts.

(** ** Dry runs of the Run Controller *)
Module RunControllerFacts.
Import Py Fs Workspace Packaging RunController.




End RunControllerFacts.

(** ** Restoring snapshots *)
Module RestoreFacts.
Import Fs FsFacts.

Lemma is_prefix_spec (a b : path) : is_prefix a b = true <-> exists c, b = a ++ c.
Proof.
  revert b. induction a as [|x a IH]; intros b; simpl.
  - split; [eauto|reflexivity].
  - destruct b as [|y b].
    + split; [discriminate|]. intros [c Hc]. discriminate.
    + rewrite andb_true_iff, String.eqb_eq, IH. split.
      * intros [-> [c ->]]. eauto.
      * intros [c Hc]. injection Hc as -> ->. eauto.
Qed.

Lemma is_prefix_app_l (d r k : path) : is_prefix (d ++ r) (d ++ k) = is_prefix r k.
Proof. induction d as [|x d IH]; simpl; [reflexivity|]. by rewrite String.eqb_refl. Qed.

Lemma is_prefix_length (a b : path) : is_prefix a b = true -> (length a <= length b)%nat.
Proof. rewrite is_prefix_spec. intros [c ->]. rewrite length_app. lia. Qed.

Lemma in_inits_iff (q p : path) : In q (inits p) <-> q <> [] /\ is_prefix q p = true.
Proof.
  revert q. induction p as [|a p IH]; intros q; simpl.
  - split; [tauto|]. destruct q; simpl; [tauto|]. intros [_ H]; discriminate.
  - rewrite in_map_iff. split.
    + intros [<-|(q' & <- & Hq')]; simpl.
      * rewrite String.eqb_refl. split; [congruence|reflexivity].
      * rewrite String.eqb_refl. apply IH in Hq' as [_ Hq']. split; [congruence|exact Hq'].
    + intros [Hq Hp]. destruct q as [|b q']; [congruence|]. simpl in Hp.
      apply andb_true_iff in Hp as [Hb Hp]. apply String.eqb_eq in Hb as ->.
      destruct q' as [|c q'']; [left; reflexivity|]. right.
      exists (c :: q''). split; [reflexivity|]. apply IH. split; [congruence|exact Hp].
Qed.

Lemma well_formedb_spec (m : fs) : well_formedb m = true -> well_formed m.
Proof.
  unfold well_formedb. intros Hb p q Hq Hpq [n Hp].
  apply forallb_forall with (x := (p, n)) in Hb;
    [|apply list_elem_of_In, elem_of_map_to_list, Hp].
  apply forallb_forall with (x := q) in Hb; [|apply in_inits_iff; auto].
  unfold exists_ in Hb. destruct (m !! q); [eexists; reflexivity|discriminate].
Qed.

Lemma mkdir_fold_keep (L : list path) (m : fs) (q : path) (n : node) :
  m !! q = Some n ->
  fold_left (fun acc q => match acc !! q with
                          | Some _ => acc
                          | None => <[q := NDir]> acc
                          end) L m !! q = Some n.
Proof.
  revert m. induction L as [|x L IH]; intros m Hm; simpl; [exact Hm|].
  apply IH. destruct (m !! x) eqn:Ex; [exact Hm|].
  rewrite lookup_insert_ne; [exact Hm|]. congruence.
Qed.

Lemma mkdir_p_new (p : path) (m : fs) (q : path) :
  m !! q = None -> mkdir_p p m !! q = if bool_decide (q ∈ inits p) then Some NDir else None.
Proof.
  unfold mkdir_p. generalize (inits p) as L. intros L. revert m.
  induction L as [|x L IH]; intros m Hm; cbn [fold_left].
  - rewrite bool_decide_eq_false_2; [exact Hm|]. apply not_elem_of_nil.
  - destruct (decide (x = q)) as [->|Hne].
    + rewrite bool_decide_eq_true_2 by apply list_elem_of_here.
      apply mkdir_fold_keep. rewrite Hm. by rewrite lookup_insert_eq.
    + rewrite IH.
      * destruct (decide (q ∈ L)) as [HL|HL].
        -- rewrite !bool_decide_eq_true_2; [reflexivity| |exact HL]. by apply list_elem_of_further.
        -- rewrite !bool_decide_eq_false_2; [reflexivity| |exact HL].
           rewrite elem_of_cons. intros [->|H]; [congruence|exact (HL H)].
      * destruct (m !! x); [exact Hm|]. rewrite lookup_insert_ne; [exact Hm|exact Hne].
Qed.

Lemma zip_read_snoc (es : list (path * node)) (k r : path) (n : node) :
  Packaging.zip_read (es ++ [(k, n)]) r = if decide (k = r) then Some n else Packaging.zip_read es r.
Proof.
  induction es as [|[q n'] es IH]; simpl; [reflexivity|].
  rewrite IH. destruct (decide (k = r)); reflexivity.
Qed.

Lemma zip_read_some_in (es : list (path * node)) (r : path) (n : node) :
  Packaging.zip_read es r = Some n -> In (r, n) es.
Proof.
  induction es as [|[q n'] es IH]; simpl; [discriminate|].
  destruct (Packaging.zip_read es r) eqn:E.
  - intros [= <-]. right. by apply IH.
  - case_decide as Hq; [|discriminate]. intros [= <-]. left. by subst.
Qed.

Lemma zip_read_functional (es : list (path * node)) (r : path) (n : node) :
  In (r, n) es -> (forall n', In (r, n') es -> n' = n) -> Packaging.zip_read es r = Some n.
Proof.
  intros Hin Hf. destruct (Packaging.zip_read es r) eqn:E.
  - apply zip_read_some_in in E. by rewrite (Hf _ E).
  - exfalso. induction es as [|[q n'] es IH]; simpl in *; [exact Hin|].
    destruct (Packaging.zip_read es r) eqn:E'; [discriminate|].
    destruct Hin as [[= -> ->]|Hin].
    + rewrite decide_True in E by reflexivity. discriminate.
    + apply IH; auto.
Qed.

(** Entries of [dest] after [extractall]: the last member of that name,
    else what was there, else a directory created for a deeper member. *)
Lemma extractall_lookup (es : list (path * node)) (dest : path) (m : fs) (r : path) :
  r <> [] ->
  extractall es dest m !! (dest ++ r) =
  match Packaging.zip_read es r with
  | Some n => Some n
  | None =>
      match m !! (dest ++ r) with
      | Some x => Some x
      | None => if existsb (fun e => is_prefix r e.1) es then Some NDir else None
      end
  end.
Proof.
  intros Hr. unfold extractall. induction es as [|[k n] es IH] using rev_ind; simpl.
  - destruct (m !! (dest ++ r)); reflexivity.
  - rewrite fold_left_app. simpl. rewrite zip_read_snoc, existsb_app. simpl.
    destruct (decide (k = r)) as [->|Hne].
    + by rewrite lookup_insert_eq.
    + rewrite lookup_insert_ne by (intros Heq; apply app_inv_head in Heq; congruence).
      set (M := fold_left _ es m) in *.
      destruct (M !! (dest ++ r)) as [x|] eqn:EM.
      * rewrite (mkdir_p_keeps _ _ _ _ EM).
        destruct (Packaging.zip_read es r); [exact IH|].
        destruct (m !! (dest ++ r)); [exact IH|].
        destruct (existsb _ es); [exact IH|discriminate].
      * rewrite (mkdir_p_new _ _ _ EM).
        destruct (Packaging.zip_read es r); [discriminate|].
        destruct (m !! (dest ++ r)); [discriminate|].
        destruct (existsb _ es); [discriminate|]. simpl.
        rewrite orb_false_r.
        assert (Hd : dest ++ r <> []) by (destruct dest, r; simpl; congruence).
        destruct (is_prefix r k) eqn:Ek.
        -- rewrite bool_decide_eq_true_2; [reflexivity|].
           rewrite list_elem_of_In, in_inits_iff, is_prefix_app_l. tauto.
        -- rewrite bool_decide_eq_false_2; [reflexivity|].
           rewrite list_elem_of_In, in_inits_iff, is_prefix_app_l. rewrite Ek. intros [_ ?]; discriminate.
Qed.

Lemma archive_entries_in (target : path) (m : fs) (r : path) (n : node) :
  In (r, n) (archive_entries target m) <-> r <> [] /\ m !! (target ++ r) = Some n.
Proof.
  unfold archive_entries. rewrite <- list_elem_of_In, list_elem_of_omap. split.
  - intros ([q n'] & Hq & Hf). simpl in Hf. apply elem_of_map_to_list in Hq.
    destruct (is_below target q) eqn:Hb; [|discriminate]. injection Hf as <- <-.
    unfold is_below in Hb. apply andb_true_iff in Hb as [Hp Hl].
    apply is_prefix_spec in Hp as [c ->]. rewrite drop_app_length. split; [|exact Hq].
    intros ->. rewrite app_nil_r, Nat.eqb_refl in Hl. discriminate.
  - intros [Hr Hm]. exists (target ++ r, n). split; [by apply elem_of_map_to_list|].
    simpl. unfold is_below. rewrite is_prefix_app, length_app.
    destruct (Nat.eqb_spec (length target + length r) (length target)) as [E|E].
    + destruct r; simpl in E; [congruence|lia].
    + simpl. by rewrite drop_app_length.
Qed.

Lemma zip_read_archive (target : path) (m : fs) (r : path) :
  r <> [] -> Packaging.zip_read (archive_entries target m) r = m !! (target ++ r).
Proof.
  intros Hr. destruct (m !! (target ++ r)) as [n|] eqn:E.
  - apply zip_read_functional; [by apply archive_entries_in|].
    intros n' Hn'. apply archive_entries_in in Hn' as [_ H]. congruence.
  - destruct (Packaging.zip_read _ r) as [n|] eqn:Z; [|reflexivity].
    apply zip_read_some_in, archive_entries_in in Z as [_ H]. congruence.
Qed.

Lemma well_formed_below (target : path) (m : fs) :
  well_formed m -> forall r k, r <> [] -> is_prefix r k = true ->
  is_Some (m !! (target ++ k)) -> is_Some (m !! (target ++ r)).
Proof.
  intros Hwf r k Hr Hk. apply Hwf.
  - destruct target, r; simpl; congruence.
  - by rewrite is_prefix_app_l.
Qed.

(** Extracting the archive of [target] into a [dest] with nothing below it
    gives back, below [dest], what was below [target]. *)
Lemma extract_archive (target dest : path) (m m0 : fs) (r : path) :
  (forall r k, r <> [] -> is_prefix r k = true ->
     is_Some (m !! (target ++ k)) -> is_Some (m !! (target ++ r))) ->
  (forall r', r' <> [] -> m0 !! (dest ++ r') = None) -> r <> [] ->
  extractall (archive_entries target m) dest m0 !! (dest ++ r) = m !! (target ++ r).
Proof.
  intros Hwf H0 Hr. rewrite extractall_lookup, zip_read_archive by exact Hr.
  destruct (m !! (target ++ r)) eqn:E; [reflexivity|]. rewrite H0 by exact Hr.
  destruct (existsb _ _) eqn:Ex; [|reflexivity].
  apply existsb_exists in Ex as ([k n] & Hin & Hk). simpl in Hk.
  apply archive_entries_in in Hin as [_ Hm].
  destruct (Hwf r k Hr Hk (mk_is_Some _ _ Hm)) as [x Hx]. congruence.
Qed.

Lemma filter_below_lookup (target q : path) (m : fs) :
  is_below target q = false ->
  filter (fun kv : path * node => is_below target kv.1 = false) m !! q = m !! q.
Proof.
  intros Hq. rewrite map_lookup_filter.
  destruct (m !! q); simpl; [|reflexivity]. by rewrite option_guard_True.
Qed.

Lemma filter_below_none (target r : path) (m : fs) :
  r <> [] -> filter (fun kv : path * node => is_below target kv.1 = false) m !! (target ++ r) = None.
Proof.
  intros Hr. rewrite map_lookup_filter.
  destruct (m !! (target ++ r)); simpl; [|reflexivity].
  rewrite option_guard_False; [reflexivity|]. simpl. unfold is_below.
  rewrite is_prefix_app, length_app. simpl.
  destruct (Nat.eqb_spec (length target + length r) (length target)) as [E|E]; [|discriminate].
  destruct r; simpl in E; [congruence|lia].
Qed.

Lemma mkdir_p_fresh_below (p r : path) (m : fs) :
  r <> [] -> m !! (p ++ r) = None -> mkdir_p p m !! (p ++ r) = None.
Proof.
  intros Hr Hm. rewrite mkdir_p_new by exact Hm.
  rewrite bool_decide_eq_false_2; [reflexivity|].
  rewrite list_elem_of_In, in_inits_iff. intros [_ H]. apply is_prefix_length in H.
  rewrite length_app in H. destruct r; simpl in H; [congruence|lia].
Qed.

Lemma mkdir_p_frame (p q : path) (m : fs) :
  related q p = false -> mkdir_p p m !! q = m !! q.
Proof.
  intros Hq. destruct (mkdir_p_lookup p m q) as [H|[_ Hin]]; [exact H|].
  apply in_inits_iff in Hin as [_ Hin]. unfold related in Hq. rewrite Hin in Hq. discriminate.
Qed.

(** ** Snapshot, then restore ([kimi_coding_agent]) *)
Theorem snapshot_restore_roundtrip (self : Snapshot.SnapshotManager) (run_id : string)
    (target sp : path) (m m1 m2 : fs) :
  Snapshot.create_snapshot self run_id target m = (sp, m1) ->
  target <> [] -> well_formed m -> is_prefix target sp = false ->
  well_formed m2 -> m2 !! sp = m1 !! sp ->
  (m2 !! target = Some NDir \/ m2 !! target = None) ->
  exists m3, Snapshot.restore_snapshot sp target m2 = Some m3 /\
    (forall r, r <> [] -> m3 !! (target ++ r) = m !! (target ++ r)) /\
    (forall q, related q target = false -> m3 !! q = m2 !! q).
Proof.
  intros Hc Htg Hwf Hsp Hwf2 Hm2 Ht. unfold Snapshot.create_snapshot in Hc.
  injection Hc as <- <-. rewrite lookup_insert_eq in Hm2.
  assert (Hbsp : is_below target (Snapshot.base_dir self ++ [(run_id ++ ".zip")%string]) = false)
    by (unfold is_below; by rewrite Hsp).
  unfold Snapshot.restore_snapshot, exists_. rewrite Hm2. simpl.
  destruct Ht as [Ht|Ht]; rewrite Ht.
  - rewrite filter_below_lookup, Hm2 by exact Hbsp.
    eexists. split; [reflexivity|]. split.
    + intros r Hr. apply extract_archive; [by apply well_formed_below| |exact Hr].
      intros r' Hr'. by apply filter_below_none.
    + intros q Hq. rewrite extractall_frame by exact Hq. apply filter_below_lookup.
      unfold related in Hq. apply orb_false_iff in Hq as [_ Hq]. unfold is_below. by rewrite Hq.
  - rewrite (mkdir_p_keeps _ _ _ _ Hm2).
    eexists. split; [reflexivity|]. split.
    + intros r Hr. apply extract_archive; [by apply well_formed_below| |exact Hr].
      intros r' Hr'. apply mkdir_p_fresh_below; [exact Hr'|].
      destruct (m2 !! (target ++ r')) eqn:E; [|reflexivity].
      destruct (Hwf2 (target ++ r') target) as [x Hx].
      * exact Htg.
      * by apply is_prefix_app.
      * by rewrite E.
      * congruence.
    + intros q Hq. rewrite extractall_frame by exact Hq. by apply mkdir_p_frame.
Qed.


Lemma snapshot_restore_roundtrip_witness :
  let sm := {| Snapshot.base_dir := ["data"; "snapshots"] |} in
  let res := Snapshot.create_snapshot sm "r1" ["proj"] Workspace.apart_fs in
  let m2 := <[["proj"; "app.py"] := NFile "y"]> (<[["proj"; "new.py"] := NFile "z"]> res.2) in
  exists m3, Snapshot.restore_snapshot res.1 ["proj"] m2 = Some m3 /\
    (forall r, r <> [] -> m3 !! (["proj"] ++ r) = Workspace.apart_fs !! (["proj"] ++ r)) /\
    (forall q, related q ["proj"] = false -> m3 !! q = m2 !! q).
Proof.
  intros sm res m2.
  apply (snapshot_restore_roundtrip sm "r1" ["proj"] res.1 Workspace.apart_fs res.2 m2).
  - apply surjective_pairing.
  - discriminate.
  - apply well_formedb_spec. vm_compute. reflexivity.
  - vm_compute. reflexivity.
  - apply well_formedb_spec. vm_compute. reflexivity.
  - vm_compute. reflexivity.
  - left. vm_compute. reflexivity.
Defined.


End RestoreFacts.

(** ** Command log paths and skipped commands *)
Module SandboxExtraFacts.
Import Sandbox.



Lemma str_length_app (a b : string) :
  String.length (a ++ b) = (String.length a + String.length b)%nat.
Proof.
  induction a as [|ch a IH]; [reflexivity|].
  change (S (String.length (a ++ b)) = S (String.length a + String.length b))%string. by rewrite IH.
Qed.










Lemma scan_prefixes_value (c : list string) (ps : list (list string)) (allowed : bool)
    (blocked r : string) :
  scan_prefixes c ps allowed blocked = Some r -> r = blocked.
Proof.
  induction ps as [|p ps IH]; simpl; [discriminate|].
  destruct (matches_prefix c p); [destruct allowed; simpl; [exact IH|congruence]|exact IH].
Qed.

(** The reasons [_skip_reason] can give. *)
Lemma skip_reason_values (self : CommandRunner) (env : Env) (c : list string) (r : string) :
  skip_reason self env c = Some r ->
  r = "empty-command"%string \/ r = "blocked-package-install"%string
  \/ r = "blocked-cli"%string \/ r = "missing-executable"%string.
Proof.
  unfold skip_reason. destruct c as [|x c']; [intros [= <-]; auto|].
  destruct (scan_prefixes _ PACKAGE_INSTALL_PREFIXES _ _) eqn:E1.
  { intros [= <-]. apply scan_prefixes_value in E1. auto. }
  destruct (scan_prefixes _ CLI_TOOL_PREFIXES _ _) eqn:E2.
  { intros [= <-]. apply scan_prefixes_value in E2. auto. }
  destruct (String.eqb x "python" || String.eqb x "py"); [discriminate|].
  destruct (which env x); [discriminate|]. intros [= <-]. auto.
Qed.

Lemma skip_reason_which (self : CommandRunner) (env1 env2 : Env) (c : list string) :
  (forall x, which env1 x = which env2 x) -> skip_reason self env1 c = skip_reason self env2 c.
Proof. intros Hw. unfold skip_reason. destruct c; [reflexivity|]. by rewrite Hw. Qed.

(** [run] never starts a process for a command it skips: when
    [_skip_reason] gives a reason or the runner is in dry-run mode, the result
    does not depend on what spawning the process would do. *)
Theorem run_skipped_never_spawns (self : CommandRunner) (env1 env2 : Env)
    (c : list string) (wd : string) :
  (forall x, which env1 x = which env2 x) ->
  skip_reason self env1 c <> None \/ _dry_run self = true ->
  run self env1 c wd = run self env2 c wd.
Proof.
  intros Hw Hs. unfold run. rewrite <- (skip_reason_which self env1 env2 c Hw).
  destruct (skip_reason self env1 c); [reflexivity|].
  destruct (_dry_run self); [reflexivity|]. destruct Hs; congruence.
Qed.

(** A result has no reason exactly when the process ran to completion; its
    return code and output are then those of the process. *)
Theorem run_reason_none_iff_completed (self : CommandRunner) (env : Env)
    (c : list string) (wd : string) :
  reason (run self env c wd) = None <->
  skip_reason self env c = None /\ _dry_run self = false /\
  exists rc out err, spawn env c wd = Completed rc out err
    /\ return_code (run self env c wd) = rc
    /\ stdout (run self env c wd) = out /\ stderr (run self env c wd) = err.
Proof.
  unfold run. destruct (skip_reason self env c); simpl.
  - split; [discriminate|]. intros [H _]; discriminate.
  - destruct (_dry_run self); simpl.
    + split; [discriminate|]. intros [_ [H _]]; discriminate.
    + destruct (spawn env c wd) as [rc out err|msg|errno msg]; simpl.
      * split; [|reflexivity]. intros _. split; [reflexivity|]. split; [reflexivity|].
        exists rc, out, err. auto.
      * split; [discriminate|]. intros (_ & _ & rc & out & err & H & _). discriminate.
      * split; [discriminate|]. intros (_ & _ & rc & out & err & H & _). discriminate.
Qed.

(** A result is marked skipped exactly when it carries a reason other than
    [os-error]. *)
Theorem run_skipped_iff_reason (self : CommandRunner) (env : Env)
    (c : list string) (wd : string) :
  skipped (run self env c wd) = true <->
  reason (run self env c wd) <> None /\ reason (run self env c wd) <> Some "os-error"%string.
Proof.
  unfold run. destruct (skip_reason self env c) as [r|] eqn:Er; simpl.
  - split; [|reflexivity]. intros _. split; [discriminate|].
    intros [= ->]. apply skip_reason_values in Er. intuition discriminate.
  - destruct (_dry_run self); simpl.
    + split; [|reflexivity]. intros _. split; discriminate.
    + destruct (spawn env c wd) as [rc out err|msg|errno msg]; simpl.
      * split; [discriminate|]. intros [H _]. congruence.
      * split; [|reflexivity]. intros _. split; discriminate.
      * split; [discriminate|]. intros [_ H]. congruence.
Qed.

(** An [os-error] result is not marked skipped and has a non-zero return
    code ([getattr(exc, "errno", 1) or 1]). *)
Theorem run_os_error_nonzero (self : CommandRunner) (env : Env) (c : list string) (wd : string) :
  reason (run self env c wd) = Some "os-error"%string ->
  skipped (run self env c wd) = false /\ return_code (run self env c wd) <> 0.
Proof.
  unfold run. destruct (skip_reason self env c) as [r|] eqn:Er; simpl.
  - intros [= ->]. apply skip_reason_values in Er. intuition discriminate.
  - destruct (_dry_run self); simpl; [discriminate|].
    destruct (spawn env c wd) as [rc out err|msg|errno msg]; simpl; try discriminate.
    intros _. split; [reflexivity|].
    destruct errno as [n|]; [|discriminate].
    destruct (Z.eqb_spec n 0); [discriminate|exact n0].
Qed.

(** A command run through [python] or [py] is never reported missing by
    [_skip_reason], whatever [which] answers. *)
Theorem skip_reason_python_never_missing (self : CommandRunner) (env : Env)
    (exe : string) (args : list string) :
  exe = "python"%string \/ exe = "py"%string ->
  skip_reason self env (exe :: args) <> Some "missing-executable"%string.
Proof.
  intros Hexe. unfold skip_reason.
  destruct (scan_prefixes _ PACKAGE_INSTALL_PREFIXES _ _) eqn:E1.
  { intros [= Heq]. apply scan_prefixes_value in E1. congruence. }
  destruct (scan_prefixes _ CLI_TOOL_PREFIXES _ _) eqn:E2.
  { intros [= Heq]. apply scan_prefixes_value in E2. congruence. }
  destruct Hexe as [-> | ->]; simpl; discriminate.
Qed.

Lemma run_skipped_never_spawns_witness :
  let self := {| _dry_run := false; _policy := default_policy |} in
  let env2 := {| which := which npm_env; spawn := fun _ _ => RaisedOSError None "boom" |} in
  run self npm_env ["npm"; "install"]%string "/w" = run self env2 ["npm"; "install"]%string "/w".
Proof.
  intros self env2. apply run_skipped_never_spawns.
  - intros x. reflexivity.
  - left. vm_compute. discriminate.
Defined.

Lemma run_os_error_nonzero_witness :
  let self := {| _dry_run := false; _policy := default_policy |} in
  let env := {| which := fun _ => Some "/usr/bin/make"%string;
                spawn := fun _ _ => RaisedOSError (Some 0) "boom" |} in
  reason (run self env ["make"]%string "/w") = Some "os-error"%string
  /\ skipped (run self env ["make"]%string "/w") = false
  /\ return_code (run self env ["make"]%string "/w") <> 0.
Proof.
  intros self env. split; [reflexivity|].
  apply run_os_error_nonzero. reflexivity.
Defined.

Lemma skip_reason_python_never_missing_witness :
  skip_reason {| _dry_run := false; _policy := default_policy |} empty_env
    ["python"; "-m"; "pytest"]%string <> Some "missing-executable"%string.
Proof.
  apply skip_reason_python_never_missing. left. reflexivity.
Defined.

End SandboxExtraFacts.

(** ** Step rows *)
Module StoreExtraFacts.
Import Py Store.

Lemma alter_missing (f : StepRow -> StepRow) (i : nat) (m : gmap nat StepRow) :
  m !! i = None -> alter f i m = m.
Proof.
  intros Hi. apply map_eq. intros j. destruct (decide (i = j)) as [->|Hne].
  - by rewrite lookup_alter_eq, Hi.
  - by rewrite lookup_alter_ne.
Qed.

Lemma apply_call_ids (c : step_call) (t t' : StepsTable) :
  (forall j, is_Some (rows t !! j) -> (j < next_id t)%nat) ->
  apply_call c t = Some t' ->
  forall j, is_Some (rows t' !! j) -> (j < next_id t')%nat.
Proof.
  intros Ht. destruct c as [rid agent input|i out st|i err]; simpl.
  - unfold record_step_start. destruct (json_dumps input) as [doc|]; simpl; [|discriminate].
    intros Heq j. injection Heq as <-. simpl. destruct (decide (next_id t = j)) as [->|Hne]; [lia|].
    rewrite lookup_insert_ne by exact Hne. intros Hj. specialize (Ht j Hj). lia.
  - unfold record_step_complete. destruct (json_dumps out) as [doc|]; simpl; [|discriminate].
    intros Heq j. injection Heq as <-. simpl. rewrite lookup_alter_is_Some. apply Ht.
  - intros Heq j. injection Heq as <-. simpl. rewrite lookup_alter_is_Some. apply Ht.
Qed.

Lemma apply_calls_ids (cs : list step_call) (t t' : StepsTable) :
  (forall j, is_Some (rows t !! j) -> (j < next_id t)%nat) ->
  apply_calls cs t = Some t' ->
  forall j, is_Some (rows t' !! j) -> (j < next_id t')%nat.
Proof.
  revert t. induction cs as [|c cs IH]; intros t Ht; simpl.
  - by intros [= <-].
  - destruct (apply_call c t) as [t1|] eqn:E; simpl; [|discriminate].
    apply IH. exact (apply_call_ids c t t1 Ht E).
Qed.

(** Step ids are never reused: in any table the store calls build, the id
    [record_step_start] returns belongs to no existing row; the new row is
    [running] with the serialised input and no output, and no other row
    changes. *)
Theorem record_step_start_fresh (cs : list step_call) (t t' : StepsTable)
    (rid agent : string) (input : pyval) (i : nat) :
  apply_calls cs empty_table = Some t ->
  record_step_start rid agent input t = Some (i, t') ->
  rows t !! i = None
  /\ (exists doc, json_dumps input = Some doc
       /\ rows t' !! i = Some {| run_id := rid; agent_name := agent; status := "running";
                                input_payload := Some doc; output_payload := None;
                                error := None |})
  /\ (forall j, j <> i -> rows t' !! j = rows t !! j).
Proof.
  intros Hcs Hs.
  assert (Hids := apply_calls_ids cs empty_table t
                    ltac:(intros j [x Hx]; discriminate) Hcs).
  unfold record_step_start in Hs. destruct (json_dumps input) as [doc|]; simpl in Hs; [|discriminate].
  injection Hs as <- <-. split; [|split].
  - destruct (rows t !! next_id t) eqn:E; [|reflexivity].
    specialize (Hids (next_id t) ltac:(by rewrite E)). lia.
  - exists doc. split; [reflexivity|]. simpl. by rewrite lookup_insert_eq.
  - intros j Hj. simpl. by rewrite lookup_insert_ne by congruence.
Qed.

(** Completing or failing a step id with no row changes nothing
    ([UPDATE ... WHERE id = ?] matches no row); completion still raises
    when [json.dumps] rejects the output. *)
Theorem step_update_unknown_id (t : StepsTable) (i : nat) (out : pyval) (st err : string) :
  rows t !! i = None ->
  record_step_failed i err t = t
  /\ record_step_complete i out st t = match json_dumps out with
                                       | Some _ => Some t
                                       | None => None
                                       end.
Proof.
  intros Hi. destruct t as [rs nid]. simpl in Hi. split.
  - unfold record_step_failed, update_row. simpl. by rewrite alter_missing.
  - unfold record_step_complete, update_row. destruct (json_dumps out); simpl; [|reflexivity].
    by rewrite alter_missing.
Qed.

Lemma record_step_start_fresh_witness :
  exists t t' i, apply_calls demo_calls empty_table = Some t
    /\ record_step_start "run2" "coding" (PDict []) t = Some (i, t')
    /\ rows t !! i = None
    /\ (exists doc, json_dumps (PDict []) = Some doc
         /\ rows t' !! i = Some {| run_id := "run2"; agent_name := "coding"; status := "running";
                                  input_payload := Some doc; output_payload := None;
                                  error := None |})
    /\ (forall j, j <> i -> rows t' !! j = rows t !! j).
Proof.
  destruct (apply_calls demo_calls empty_table) as [t|] eqn:E; [|vm_compute in E; discriminate].
  destruct (record_step_start "run2" "coding" (PDict []) t) as [[i t']|] eqn:E2.
  - exists t, t', i. split; [reflexivity|]. split; [exact E2|].
    exact (record_step_start_fresh demo_calls t t' "run2" "coding" (PDict []) i E E2).
  - vm_compute in E. injection E as <-. vm_compute in E2. discriminate.
Defined.

Lemma step_update_unknown_id_witness :
  exists t, apply_calls demo_calls empty_table = Some t
    /\ rows t !! 7%nat = None
    /\ record_step_failed 7 "boom" t = t
    /\ record_step_complete 7 (PDict []) "succeeded" t
       = match json_dumps (PDict []) with Some _ => Some t | None => None end.
Proof.
  destruct (apply_calls demo_calls empty_table) as [t|] eqn:E; [|vm_compute in E; discriminate].
  assert (H7 : rows t !! 7%nat = None).
  { vm_compute in E. injection E as <-. vm_compute. reflexivity. }
  exists t. split; [reflexivity|]. split; [exact H7|].
  exact (step_update_unknown_id t 7 (PDict []) "succeeded" "boom" H7).
Defined.

End StoreExtraFacts.

(** ** Pipeline runs read back *)
Module PipelineExtraFacts.
Import Py Fs Pipeline FsFacts RestoreFacts SandboxExtraFacts.

Lemma filter_rows_none (rid : string) (rows : list StepRow) :
  Forall (fun row => row_run_id row <> rid) rows ->
  filter (fun row => row_run_id row = rid) rows = [].
Proof.
  induction 1 as [|row rows Hrow _ IH]; [reflexivity|].
  rewrite filter_cons. by rewrite decide_False.
Qed.

Lemma filter_rows_all (rid : string) (rows : list StepRow) :
  Forall (fun row => row_run_id row = rid) rows ->
  filter (fun row => row_run_id row = rid) rows = rows.
Proof.
  induction 1 as [|row rows Hrow _ IH]; [reflexivity|].
  rewrite filter_cons. rewrite decide_True by exact Hrow. by rewrite IH.
Qed.

Lemma run_agents_rows (ags : list BaseAgent) (rid : string) (target : path)
    (sh : list (string * pyval)) (w : World) :
  match run_agents ags rid target sh w with
  | (ss, _, _, w') =>
      w_runs w' = w_runs w /\ w_artifacts w' = w_artifacts w
      /\ w_steps w' = w_steps w ++ map (row_of rid) ss
  end.
Proof.
  revert sh w. induction ags as [|a ags IH]; intros sh w; simpl.
  - by rewrite app_nil_r.
  - destruct (run a target sh (w_fs w)) as [[out sh1] m1]. destruct out as [p|msg].
    + specialize (IH sh1 (record_step {| row_run_id := rid; row_agent_name := name a;
                    row_status := SUCCEEDED; row_payload := p |}
                    {| w_fs := m1; w_runs := w_runs w; w_steps := w_steps w;
                       w_artifacts := w_artifacts w; w_agent_calls := w_agent_calls w ++ [name a] |})).
      destruct (run_agents ags rid target sh1 _) as [[[ss st] sh'] w'].
      destruct IH as (H1 & H2 & H3). simpl in *. rewrite H1, H2, H3, <- app_assoc. auto.
    + simpl. auto.
Qed.

(** What [load_run] reports after [execute]: with a run id no earlier step
    row carries, it returns the run's final status and the steps [execute]
    returned, in order, each payload as [json.loads(json.dumps(payload))]. *)
Theorem execute_load_run (self : AgentOrchestrator) (rid : string) (target : path)
    (w w' : World) (res : RunResult) :
  execute self rid target w = Some (res, w') ->
  Forall (fun row => row_run_id row <> rid) (w_steps w) ->
  load_run rid w' = Some (run_status res,
                          map (fun s => (agent_name s, status s,
                                         json_loads <$> json_dumps (payload s)))
                              (steps res)).
Proof.
  intros Hex Hfresh. unfold execute in Hex.
  destruct (Snapshot.create_snapshot _ _ _ _) as [sp m3].
  pose proof (run_agents_rows (agents self) rid target []
                (set_fs m3 (set_fs (mkdir_p target (w_fs (record_run_start rid w)))
                                   (record_run_start rid w)))) as Hrows.
  destruct (run_agents _ _ _ _ _) as [[[ss st] sh] w4].
  destruct Hrows as (Hruns & _ & Hsteps). simpl in Hruns, Hsteps.
  assert (H5 : forall w5, w_runs w5 = w_runs w4 -> w_steps w5 = w_steps w4 ->
            load_run rid (finalize_run rid st w5)
            = Some (st, map (fun s => (agent_name s, status s,
                                       json_loads <$> json_dumps (payload s))) ss)).
  { intros w5 Hr Hs. unfold load_run. simpl. rewrite Hr, Hruns. simpl.
    rewrite !String.eqb_refl. simpl.
    rewrite Hs, Hsteps, filter_app.
    rewrite filter_rows_none by exact Hfresh.
    simpl. rewrite filter_rows_all by (apply Forall_forall; intros row Hrow;
      apply list_elem_of_fmap in Hrow as (s & -> & _); reflexivity).
    rewrite map_map. reflexivity. }
  destruct st; cbn [mbind option_bind] in Hex.
  4: { destruct (Snapshot.restore_snapshot _ _ _) as [m5|]; cbn [mbind option_bind] in Hex;
       [|discriminate].
       injection Hex as <- <-. simpl. by apply H5. }
  all: destruct (package _ _ _ _ _) as [[ap m5]|]; cbn [mbind option_bind] in Hex;
         [|discriminate];
       injection Hex as <- <-; simpl; by apply H5.
Qed.


Lemma run_json_name_ne (rid : string) :
  ("agent_run_" ++ rid ++ ".json")%string <> (rid ++ ".zip")%string.
Proof.
  intros Heq. apply (f_equal String.length) in Heq.
  rewrite !str_length_app in Heq. simpl in Heq. lia.
Qed.

(** [RunPackager.package]: the archive [dist/<run_id>.zip] holds
    [agent_run_<run_id>.json] with the serialised contexts, and every other
    entry below the target as it was before packaging. *)
Lemma package_spec (dist : path) (rid : string) (target : path)
    (ctx : list (string * pyval)) (m : fs) (ap : path) (m' : fs) :
  package dist rid target ctx m = Some (ap, m') ->
  ap = dist ++ [(rid ++ ".zip")%string]
  /\ exists es doc,
       m' !! ap = Some (NZip es)
       /\ json_dumps (PDict (map (fun kv => (PStr kv.1, kv.2)) ctx)) = Some doc
       /\ Packaging.zip_read es [("agent_run_" ++ rid ++ ".json")%string] = Some (NJson doc)
       /\ (forall r, r <> [] -> r <> [("agent_run_" ++ rid ++ ".json")%string] ->
             target ++ r <> ap -> Packaging.zip_read es r = m !! (target ++ r)).
Proof.
  intros Hp. unfold package in Hp.
  destruct (json_dumps _) as [doc|] eqn:Ed; cbn [mbind option_bind] in Hp; [|discriminate].
  injection Hp as <- <-. split; [reflexivity|].
  set (jn := ("agent_run_" ++ rid ++ ".json")%string).
  set (ap := dist ++ [(rid ++ ".zip")%string]).
  set (m1 := <[target ++ [jn] := NJson doc]> m).
  assert (Hm2 : forall q, q <> ap ->
            (if exists_ ap m1 then unlink ap m1 else m1) !! q = m1 !! q).
  { intros q Hq. destruct (exists_ ap m1); [|reflexivity].
    unfold unlink. by rewrite lookup_delete_ne by congruence. }
  assert (Hjn : target ++ [jn] <> ap).
  { intros Heq. apply app_inj_tail in Heq as [_ Heq]. exact (run_json_name_ne rid Heq). }
  eexists _, doc. split; [by rewrite lookup_insert_eq|]. split; [reflexivity|]. split.
  - rewrite zip_read_archive by discriminate. rewrite Hm2 by exact Hjn.
    unfold m1. by rewrite lookup_insert_eq.
  - intros r Hr Hrj Hap. rewrite zip_read_archive by exact Hr. rewrite Hm2 by exact Hap.
    unfold m1. rewrite lookup_insert_ne; [reflexivity|].
    intros Heq. apply app_inv_head in Heq. congruence.
Qed.

(** After a run that did not fail (snapshot and dist directories apart),
    the snapshot archive is gone, the dist archive is recorded as the run's
    artifact, and it holds [agent_run_<run_id>.json] with the run's
    contexts. *)
Theorem execute_success_cleanup (self : AgentOrchestrator) (rid : string) (target : path)
    (w w' : World) (res : RunResult) :
  execute self rid target w = Some (res, w') ->
  run_status res <> FAILED ->
  Snapshot.base_dir (snapshot_manager self) <> dist_dir self ->
  w_fs w' !! (Snapshot.base_dir (snapshot_manager self) ++ [(rid ++ ".zip")%string]) = None
  /\ w_artifacts w' = w_artifacts w ++ [(rid, "dist"%string, dist_dir self ++ [(rid ++ ".zip")%string])]
  /\ exists es doc,
       w_fs w' !! (dist_dir self ++ [(rid ++ ".zip")%string]) = Some (NZip es)
       /\ json_dumps (PDict (map (fun kv => (PStr kv.1, kv.2)) (contexts res))) = Some doc
       /\ Packaging.zip_read es [("agent_run_" ++ rid ++ ".json")%string] = Some (NJson doc).
Proof.
  intros Hex Hst Hdirs. unfold execute in Hex.
  destruct (Snapshot.create_snapshot _ _ _ _) as [sp m3] eqn:Ecs.
  unfold Snapshot.create_snapshot in Ecs. injection Ecs as Esp _.
  pose proof (run_agents_rows (agents self) rid target []
                (set_fs m3 (set_fs (mkdir_p target (w_fs (record_run_start rid w)))
                                   (record_run_start rid w)))) as Hrows.
  destruct (run_agents _ _ _ _ _) as [[[ss st] sh] w4].
  destruct Hrows as (_ & Harts & _). simpl in Harts.
  assert (Hne : Snapshot.base_dir (snapshot_manager self) ++ [(rid ++ ".zip")%string]
                <> dist_dir self ++ [(rid ++ ".zip")%string]).
  { intros Heq. apply app_inj_tail in Heq as [Heq _]. exact (Hdirs Heq). }
  destruct st; cbn [mbind option_bind] in Hex.
  4: { destruct (Snapshot.restore_snapshot _ _ _); cbn [mbind option_bind] in Hex; [|discriminate].
       injection Hex as <- _. simpl in Hst. congruence. }
  all: destruct (package _ _ _ _ _) as [[ap m5]|] eqn:Ep; cbn [mbind option_bind] in Hex;
         [|discriminate].
  all: injection Hex as <- <-; simpl.
  all: apply package_spec in Ep as (-> & es & doc & Hap & Hdoc & Hjson & _).
  all: subst sp; unfold Snapshot.cleanup_snapshot, exists_, unlink.
  all: split; [|split; [by rewrite Harts|]].
  all: try (destruct (m5 !! (Snapshot.base_dir (snapshot_manager self) ++ [(rid ++ ".zip")%string])) eqn:E; [rewrite lookup_delete_eq; reflexivity|exact E]).
  all: exists es, doc; split; [|split; [exact Hdoc|exact Hjson]].
  all: destruct (m5 !! (Snapshot.base_dir (snapshot_manager self) ++ [(rid ++ ".zip")%string])); [|exact Hap]; by rewrite lookup_delete_ne by congruence.
Qed.



Lemma execute_load_run_witness :
  match execute demo_orchestrator "run1" ["t"] demo_world with
  | Some (res, w') =>
      load_run "run1" w' = Some (run_status res,
                                 map (fun s => (agent_name s, status s,
                                                json_loads <$> json_dumps (payload s)))
                                     (steps res))
  | None => False
  end.
Proof.
  destruct (execute demo_orchestrator "run1" ["t"] demo_world) as [[res w']|] eqn:E;
    [|vm_compute in E; discriminate].
  apply (execute_load_run demo_orchestrator "run1" ["t"] demo_world w' res E).
  constructor.
Defined.

Lemma execute_success_cleanup_witness :
  match execute demo_partial_orchestrator "run1" ["t"] demo_world with
  | Some (res, w') =>
      run_status res <> FAILED
      /\ w_fs w' !! ["state"; "snapshots"; "run1.zip"] = None
      /\ w_artifacts w' = w_artifacts demo_world ++ [("run1", "dist"%string, ["state"; "dist"; "run1.zip"])]
      /\ exists es doc,
           w_fs w' !! ["state"; "dist"; "run1.zip"] = Some (NZip es)
           /\ json_dumps (PDict (map (fun kv => (PStr kv.1, kv.2)) (contexts res))) = Some doc
           /\ Packaging.zip_read es ["agent_run_run1.json"] = Some (NJson doc)
  | None => False
  end.
Proof.
  destruct (execute demo_partial_orchestrator "run1" ["t"] demo_world) as [[res w']|] eqn:E;
    [|vm_compute in E; discriminate].
  assert (Hst : run_status res <> FAILED).
  { vm_compute in E. injection E as <- _. discriminate. }
  split; [exact Hst|].
  exact (execute_success_cleanup demo_partial_orchestrator "run1" ["t"] demo_world w' res E Hst
           ltac:(discriminate)).
Defined.

End PipelineExtraFacts.

(** ** Bundle members *)
Module PackagingExtraFacts.
Import Py Fs Packaging FsFacts PackagingFacts.

Lemma is_prefix_length_le (a b : path) : is_prefix a b = true -> (length a <= length b)%nat.
Proof.
  revert b. induction a as [|x a IH]; intros b; simpl; [lia|].
  destruct b as [|y b]; [discriminate|]. rewrite andb_true_iff. intros [_ H].
  simpl. specialize (IH b H). lia.
Qed.

Lemma in_inits_head (q p : path) : In q (inits p) -> q <> [] /\ head q = head p.
Proof.
  destruct p as [|a p]; simpl; [tauto|].
  intros [<-|Hin]; [split; [discriminate|reflexivity]|].
  apply in_map_iff in Hin as (q' & <- & _). split; [discriminate|reflexivity].
Qed.

(** [mkdir_p p] leaves a path longer than [p] as it is. *)
Lemma mkdir_p_longer (p : path) (m : fs) (q : path) :
  (length p < length q)%nat -> mkdir_p p m !! q = m !! q.
Proof.
  intros Hl. destruct (mkdir_p_lookup p m q) as [H|[_ Hin]]; [exact H|].
  apply in_inits_prefix, is_prefix_length_le in Hin. lia.
Qed.

(** ... and a path under another first component. *)
Lemma mkdir_p_other_head (p : path) (m : fs) (q : path) :
  head q <> head p -> mkdir_p p m !! q = m !! q.
Proof.
  intros Hh. destruct (mkdir_p_lookup p m q) as [H|[_ Hin]]; [exact H|].
  apply in_inits_head in Hin. tauto.
Qed.

Lemma logs_frame (lfs : list (string * node)) (t : fs) (q : path) :
  head q <> Some "logs"%string ->
  fold_left (fun acc lf => <[["logs"; lf.1] := lf.2]> acc) lfs t !! q = t !! q.
Proof.
  revert t. induction lfs as [|lf lfs IH]; intros t Hq; simpl; [reflexivity|].
  rewrite IH by exact Hq. rewrite lookup_insert_ne; [reflexivity|].
  intros Heq. apply Hq. by rewrite <- Heq.
Qed.


(** [write_results] leaves [artifacts/<n>/<f>] alone when no result is named [n]. *)
Lemma write_results_frame_name (results : list AgentResult) (t t' : fs) (n f : string) :
  write_results results t = Some t' -> Forall (fun r => name r <> n) results ->
  t' !! ["artifacts"; n; f] = t !! ["artifacts"; n; f].
Proof.
  revert t. induction results as [|r rs IH]; intros t Hw Hn; simpl in Hw.
  - by injection Hw as <-.
  - inversion Hn as [|? ? Hr Hrs]; subst.
    destruct (write_artifacts _ (artifacts r) _) as [t1|] eqn:E1; simpl in Hw; [|discriminate].
    rewrite (IH t1 Hw Hrs).
    rewrite (write_artifacts_frame _ _ _ _ _ E1).
    + apply mkdir_p_longer. simpl. lia.
    + intros f' _ Heq. injection Heq as Heq _. exact (Hr (eq_sym Heq)).
Qed.

Lemma write_artifacts_skip (dir : path) (fas : list (string * pyval)) (t t' : fs)
    (f : string) (kvs : list (pyval * pyval)) :
  NoDup (map fst fas) -> In (f, PDict kvs) fas -> py_get kvs "payload" PNone = PNone ->
  write_artifacts dir fas t = Some t' -> t' !! (dir ++ [f]) = t !! (dir ++ [f]).
Proof.
  intros Hnd Hin Hp. revert t. induction fas as [|[f' art] fas IH]; intros t Hw;
    simpl in Hin; [tauto|].
  cbn [write_artifacts] in Hw. simpl in Hnd. apply NoDup_cons in Hnd as [Hf' Hnd].
  destruct (write_artifact dir t (f', art)) as [t1|] eqn:E1; cbn [mbind option_bind] in Hw;
    [|discriminate].
  destruct Hin as [Heq|Hin].
  - injection Heq as Hf Ha. subst f' art. simpl in E1. rewrite Hp in E1. injection E1 as <-.
    apply (write_artifacts_frame dir fas t t' _ Hw).
    intros f'' Hf'' Heq. apply app_inv_head in Heq. injection Heq as ->. contradiction.
  - rewrite (IH Hnd Hin t1 Hw).
    apply (write_artifact_frame dir t t1 f' art _ E1).
    intros Heq. apply app_inv_head in Heq. injection Heq as Hff. subst f'. apply Hf'.
    apply list_elem_of_In, in_map_iff. exists (f, PDict kvs). auto.
Qed.

Lemma write_results_skip (results : list AgentResult) (t t' : fs) (r : AgentResult)
    (f : string) (kvs : list (pyval * pyval)) :
  NoDup (map name results) -> In r results ->
  NoDup (map fst (artifacts r)) -> In (f, PDict kvs) (artifacts r) ->
  py_get kvs "payload" PNone = PNone ->
  write_results results t = Some t' ->
  t' !! ["artifacts"; name r; f] = t !! ["artifacts"; name r; f].
Proof.
  intros Hnd Hin Hndf Hinf Hp. revert t.
  induction results as [|r' rs IH]; intros t Hw; simpl in *; [tauto|].
  apply NoDup_cons in Hnd as [Hr' Hnd].
  destruct (write_artifacts _ (artifacts r') _) as [t1|] eqn:E1; simpl in Hw; [|discriminate].
  destruct Hin as [->|Hin].
  - rewrite (write_results_frame_name rs t1 t' (name r) f Hw).
    + pose proof (write_artifacts_skip ["artifacts"; name r] _ _ _ f kvs Hndf Hinf Hp E1) as Hs.
      simpl in Hs. rewrite Hs. apply mkdir_p_longer. simpl. lia.
    + apply Forall_forall. intros r'' Hr'' Heq. apply Hr'.
      rewrite <- Heq. apply list_elem_of_In, in_map, list_elem_of_In, Hr''.
  - rewrite (IH Hnd Hin t1 Hw).
    rewrite (write_artifacts_frame _ _ _ _ _ E1).
    + apply mkdir_p_longer. simpl. lia.
    + intros f' _ Heq. injection Heq as Heq _. apply Hr'. rewrite <- Heq.
      apply list_elem_of_In, in_map, Hin.
Qed.

Lemma zip_members_none (t : fs) (p : path) :
  t !! p = None -> zip_read (zip_members t) p = None.
Proof.
  intros Hp. apply zip_read_none. intros Hin.
  apply list_elem_of_fmap in Hin as ([q n] & Hq & Hin). simpl in Hq. subst q.
  unfold zip_members in Hin. apply list_elem_of_filter in Hin as [_ Hin].
  apply elem_of_map_to_list in Hin. congruence.
Qed.


(** An artifact whose payload is [None] is skipped: the bundle has no
    member [artifacts/<agent>/<filename>] for it. *)
Theorem package_none_payload_skipped (run_id target_path : string) (results : list AgentResult)
    (metadata : pyval) (sbom_doc : option jvalue) (logs : option (list (string * node)))
    (members : list (path * node)) (r : AgentResult) (f : string)
    (kvs : list (pyval * pyval)) :
  package run_id target_path results metadata sbom_doc logs = Some members ->
  NoDup (map name results) -> In r results ->
  NoDup (map fst (artifacts r)) -> In (f, PDict kvs) (artifacts r) ->
  py_get kvs "payload" PNone = PNone ->
  zip_read members ["artifacts"; name r; f] = None.
Proof.
  intros Hpk Hnd Hin Hndf Hinf Hp. unfold package in Hpk.
  destruct (json_dumps metadata) as [prov|]; cbn [mbind option_bind] in Hpk; [|discriminate].
  destruct (json_dumps (manifest_of _ _ _ _)) as [man|]; cbn [mbind option_bind] in Hpk;
    [|discriminate].
  destruct (write_results results _) as [t4|] eqn:E4; cbn [mbind option_bind] in Hpk;
    [|discriminate].
  destruct sbom_doc as [sbom|]; cbn [mbind option_bind] in Hpk; [|discriminate].
  injection Hpk as <-. apply zip_members_none.
  assert (L5 : <[["sbom.json"] := NJson sbom]> t4 !! ["artifacts"; name r; f] = None).
  { rewrite lookup_insert_ne by discriminate.
    rewrite (write_results_skip _ _ _ r f kvs Hnd Hin Hndf Hinf Hp E4).
    rewrite mkdir_p_longer by (simpl; lia).
    by rewrite !lookup_insert_ne by discriminate. }
  destruct logs as [lfs|]; [|exact L5].
  rewrite logs_frame by discriminate. by rewrite mkdir_p_other_head.
Qed.


Lemma package_none_payload_skipped_witness :
  exists members,
    package "r1" "proj" demo_ok_results (PDict []) (Some (JObj [])) None = Some members
    /\ zip_read members ["artifacts"; "testing"; "report.json"] = None.
Proof.
  destruct (package "r1" "proj" demo_ok_results (PDict []) (Some (JObj [])) None) as [ms|] eqn:E;
    [|vm_compute in E; discriminate].
  exists ms. split; [reflexivity|].
  refine (package_none_payload_skipped "r1" "proj" demo_ok_results (PDict []) (Some (JObj [])) None
            ms {| name := "testing"; status := "failed"; summary := "1 failure"; details := PDict [];
                  artifacts := [("report.json", PDict [(PStr "payload", PNone)])] |}
            "report.json" [(PStr "payload", PNone)] E _ _ _ _ _).
  - apply (bool_decide_unpack _). vm_compute. exact I.
  - right. left. reflexivity.
  - apply (bool_decide_unpack _). vm_compute. exact I.
  - left. reflexivity.
  - reflexivity.
Defined.

End PackagingExtraFacts.
